(** * lib-bucket-provisioner: resource handlers

    A shallow embedding of [pkg/provisioner/resourcehandlers.go] and of the
    [util] helpers that sit next to it, with the properties of the design
    document stated over it.

    Conventions of the embedding.
    - A Go [string] is a Rocq [string] (a sequence of bytes).
    - A pointer the code only reads through is the value it points to, wrapped
      in [option] when the code tests it against [nil].  A pointer the code
      writes through ([obc.Status.Phase = phase], [removeFinalizer(ob)] on the
      caller's object) is a location in the memory of the [World].
    - A Go result pair (pointer to [T], [error]) is a pair
      [option T * option error].
    - API requests run in the state monad [M] over a [World]: the state of the
      API server behind the client, the requests sent so far, and the memory.
    - Calls to the loggers ([log], [logD], [klog]) write nothing the functions
      read back and are left out. *)

From Stdlib Require Import ZArith Ascii String DecimalString.
From stdpp Require Import base option list gmap strings functions.

Local Open Scope Z_scope.

(** ** Go's standard library: [strings], [strconv] *)

Module strings.

Definition isUpper (c : ascii) : bool :=
  ((65 <=? nat_of_ascii c) && (nat_of_ascii c <=? 90))%nat.

Definition isLower (c : ascii) : bool :=
  ((97 <=? nat_of_ascii c) && (nat_of_ascii c <=? 122))%nat.

(** [c < utf8.RuneSelf] *)
Definition isASCIIByte (c : ascii) : bool := (nat_of_ascii c <? 128)%nat.

Definition toLowerByte (c : ascii) : ascii :=
  if isUpper c then ascii_of_nat (nat_of_ascii c + 32) else c.

Fixpoint isASCII (s : string) : bool :=
  match s with
  | EmptyString => true
  | String c s' => isASCIIByte c && isASCII s'
  end.

(** [strings.ToLower] on its ASCII path: ['A'..'Z'] are shifted by
    ['a' - 'A'], every other byte is kept.  On a string with a byte of
    [0x80] or more Go maps whole runes through the Unicode tables; those
    tables are not part of this development, and the statements that
    depend on [ToLower] are made for ASCII strings. *)
Fixpoint ToLower (s : string) : string :=
  match s with
  | EmptyString => EmptyString
  | String c s' => String (toLowerByte c) (ToLower s')
  end.

Fixpoint HasPrefix (s prefix : string) {struct prefix} : bool :=
  match prefix, s with
  | EmptyString, _ => true
  | String p prefix', String c s' => bool_decide (c = p) && HasPrefix s' prefix'
  | String _ _, EmptyString => false
  end.

Fixpoint HasSuffix (s suffix : string) : bool :=
  bool_decide (s = suffix) ||
  match s with
  | EmptyString => false
  | String _ s' => HasSuffix s' suffix
  end.

(** [strings.Count(s, string(c))] *)
Fixpoint CountByte (s : string) (c : ascii) : nat :=
  match s with
  | EmptyString => O
  | String b s' => (if bool_decide (b = c) then 1 else 0) + CountByte s' c
  end.

(** [strings.IndexByte]; [None] stands for [-1]. *)
Fixpoint IndexByte (s : string) (c : ascii) : option nat :=
  match s with
  | EmptyString => None
  | String b s' =>
      if bool_decide (b = c) then Some O else S <$> IndexByte s' c
  end.

(** [strings.LastIndex(s, string(c))]; [None] stands for [-1]. *)
Fixpoint LastIndexByte (s : string) (c : ascii) : option nat :=
  match s with
  | EmptyString => None
  | String b s' =>
      match LastIndexByte s' c with
      | Some i => Some (S i)
      | None => if bool_decide (b = c) then Some O else None
      end
  end.

(** [strings.Index]; [None] stands for [-1]. *)
Fixpoint Index (s substr : string) : option nat :=
  if HasPrefix s substr then Some O
  else match s with
       | EmptyString => None
       | String _ s' => S <$> Index s' substr
       end.

(** The slices [s[:i]] and [s[i:]], for [i] within the string. *)
Fixpoint sliceTo (i : nat) (s : string) : string :=
  match i, s with
  | S i', String c s' => String c (sliceTo i' s')
  | _, _ => EmptyString
  end.

Fixpoint sliceFrom (i : nat) (s : string) : string :=
  match i, s with
  | S i', String _ s' => sliceFrom i' s'
  | _, _ => s
  end.

(** [strings.Join] *)
Fixpoint Join (elems : list string) (sep : string) : string :=
  match elems with
  | [] => EmptyString
  | [e] => e
  | e :: rest => e +:+ sep +:+ Join rest sep
  end.

End strings.

Module strconv.

(** [strconv.Itoa]: base 10, a leading ['-'] for negative numbers. *)
Definition Itoa (i : Z) : string := NilZero.string_of_int (Z.to_int i).

Definition FormatBool (b : bool) : string := if b then "true" else "false".

End strconv.

(** ** Go's standard library: [path] *)

Module path.

(** The loop of [Clean] that drops the last element written:
    [out.w--; for out.w > dotdot && out.index(out.w) != '/' { out.w-- }].
    The buffer is kept with its last byte first. *)
Fixpoint backtrack (dotdot : nat) (out : list ascii) : list ascii :=
  match out with
  | [] => []
  | c :: out' =>
      if (dotdot <? length out')%nat && negb (bool_decide (c = "/"%char))
      then backtrack dotdot out'
      else out'
  end.

(** The main loop of [Clean] over the unread part of the path.  With
    [inElem] unset the loop stands at the start of a path element and
    chooses between its four cases; with [inElem] set it is inside the
    copy loop of the last case, [for ; r < n && path[r] != '/'; r++]. *)
Fixpoint scan (rooted inElem : bool) (p : string) (out : list ascii)
         (dotdot : nat) : list ascii :=
  match p with
  | EmptyString => out
  | String c rest =>
      if inElem then
        if bool_decide (c = "/"%char) then scan rooted false rest out dotdot
        else scan rooted true rest (c :: out) dotdot
      else if bool_decide (c = "/"%char) then
        (* empty path element *)
        scan rooted false rest out dotdot
      else
        let element :=
          let out :=
            if (rooted && negb (length out =? 1)%nat)
               || (negb rooted && negb (length out =? 0)%nat)
            then "/"%char :: out else out in
          scan rooted true rest (c :: out) dotdot in
        if bool_decide (c = "."%char) then
          match rest with
          | EmptyString => out (* . element *)
          | String c1 rest1 =>
              if bool_decide (c1 = "/"%char) then
                (* . element *)
                scan rooted false rest out dotdot
              else if bool_decide (c1 = "."%char)
                      && match rest1 with
                         | EmptyString => true
                         | String c2 _ => bool_decide (c2 = "/"%char)
                         end
              then
                (* .. element: remove to last / *)
                if (dotdot <? length out)%nat then
                  scan rooted false rest1 (backtrack dotdot out) dotdot
                else if negb rooted then
                  let out := if (0 <? length out)%nat
                             then "/"%char :: out else out in
                  let out := "."%char :: "."%char :: out in
                  scan rooted false rest1 out (length out)
                else scan rooted false rest1 out dotdot
              else element
          end
        else element
  end.

(** [path.Clean] *)
Definition Clean (p : string) : string :=
  match p with
  | EmptyString => "."
  | String c rest =>
      let rooted := bool_decide (c = "/"%char) in
      let out :=
        if rooted then scan true false rest ["/"%char] 1
        else scan false false p [] 0 in
      match out with
      | [] => "."
      | _ => string_of_list_ascii (rev out)
      end
  end.

(** [path.Join]: empty elements before the first non-empty one are
    skipped, the rest is joined with slashes and cleaned. *)
Fixpoint Join (elem : list string) : string :=
  match elem with
  | [] => EmptyString
  | e :: rest =>
      if bool_decide (e = EmptyString) then Join rest
      else Clean (strings.Join elem "/")
  end.

End path.

(** ** Go's standard library: [net/url]

    [Parse] and [URL.String] with the functions they rest on, over the
    fields of [URL] that [Parse] fills. *)

Module url.

Inductive encoding : Set :=
| encodePath
| encodePathSegment
| encodeHost
| encodeZone
| encodeUserPassword
| encodeQueryComponent
| encodeFragment.

#[global] Instance encoding_eq_dec : EqDecision encoding.
Proof. solve_decision. Defined.

(** What the parser can complain about: [EscapeError],
    [InvalidHostError] and the errors it makes with [errors.New]. *)
Inductive Err : Set :=
| EscapeError (s : string)
| InvalidHostError (s : string)
| ErrInvalidControlCharacter
| ErrMissingProtocolScheme
| ErrFirstPathSegmentColon
| ErrMissingBracket
| ErrInvalidPort (colonPort : string)
| ErrInvalidUserinfo.

(** [url.Error] *)
Record Error : Set := {
  Op : string;
  ErrURL : string;
  ErrErr : Err;
}.

Record Userinfo : Set := {
  username : string;
  password : string;
  passwordSet : bool;
}.

Record URL : Set := {
  Scheme : string;
  Opaque : string;
  User : option Userinfo;
  Host : string;
  Path : string;
  RawPath : string;
  ForceQuery : bool;
  RawQuery : string;
  Fragment : string;
}.

Definition byte (c : ascii) : nat := nat_of_ascii c.

Definition between (lo hi c : ascii) : bool :=
  ((byte lo <=? byte c) && (byte c <=? byte hi))%nat.

Definition isAlpha (c : ascii) : bool :=
  between "a" "z" c || between "A" "Z" c.

Definition isDigit (c : ascii) : bool := between "0" "9" c.

Definition oneOf (cs : string) (c : ascii) : bool :=
  bool_decide (c ∈ list_ascii_of_string cs).

Definition ishex (c : ascii) : bool :=
  isDigit c || between "a" "f" c || between "A" "F" c.

Definition unhex (c : ascii) : nat :=
  if isDigit c then (byte c - byte "0")%nat
  else if between "a" "f" c then (byte c - byte "a" + 10)%nat
  else if between "A" "F" c then (byte c - byte "A" + 10)%nat
  else O.

(** [unhex(a)<<4 | unhex(b)] *)
Definition unhex2 (a b : ascii) : ascii :=
  ascii_of_nat (unhex a * 16 + unhex b).

(** ["0123456789ABCDEF"[n]] *)
Definition upperhex (n : nat) : ascii :=
  if (n <? 10)%nat then ascii_of_nat (byte "0" + n)
  else ascii_of_nat (byte "A" + (n - 10)).

(** The double quote, which a Rocq string literal cannot hold next to
    other characters without doubling. *)
Definition dquote : ascii := ascii_of_nat 34.

(** [shouldEscape]: whether the byte must be written as [%XX] in the
    given part of a URL. *)
Definition shouldEscape (c : ascii) (mode : encoding) : bool :=
  if isAlpha c || isDigit c then false
  else if (bool_decide (mode = encodeHost) || bool_decide (mode = encodeZone))
          && (oneOf "!$&'()*+,;=:[]<>" c || bool_decide (c = dquote))
  then false
  else if oneOf "-_.~" c then false
  else if oneOf "$&+,/:;=?@" c then
    match mode with
    | encodePath => bool_decide (c = "?"%char)
    | encodePathSegment => oneOf "/;,?" c
    | encodeUserPassword => oneOf "@/?:" c
    | encodeQueryComponent => true
    | encodeFragment => false
    | encodeHost | encodeZone => true
    end
  else if bool_decide (mode = encodeFragment) && oneOf "!()*" c then false
  else true.

(** The first loop of [unescape]: it counts the [%] and checks that
    each starts a well-formed escape that the mode allows.  The result
    is the error, or the count together with [hasPlus]. *)
Fixpoint unescapeCheck (s : string) (mode : encoding) (n : nat)
         (hasPlus : bool) : Err + (nat * bool) :=
  match s with
  | EmptyString => inr (n, hasPlus)
  | String c rest =>
      if bool_decide (c = "%"%char) then
        match rest with
        | String a (String b rest2) =>
            if negb (ishex a) || negb (ishex b) then
              inl (EscapeError (strings.sliceTo 3 s))
            else if bool_decide (mode = encodeHost) && (unhex a <? 8)%nat
                    && negb (bool_decide (strings.sliceTo 3 s = "%25"))
            then inl (EscapeError (strings.sliceTo 3 s))
            else if bool_decide (mode = encodeZone)
                    && negb (bool_decide (strings.sliceTo 3 s = "%25"))
                    && negb (bool_decide (unhex2 a b = " "%char))
                    && shouldEscape (unhex2 a b) encodeHost
            then inl (EscapeError (strings.sliceTo 3 s))
            else unescapeCheck rest2 mode (S n) hasPlus
        | _ => inl (EscapeError (strings.sliceTo 3 s))
        end
      else if bool_decide (c = "+"%char) then
        unescapeCheck rest mode n (bool_decide (mode = encodeQueryComponent))
      else if (bool_decide (mode = encodeHost) || bool_decide (mode = encodeZone))
              && (byte c <? 128)%nat && shouldEscape c encodeHost
      then inl (InvalidHostError (String c EmptyString))
      else unescapeCheck rest mode n hasPlus
  end.

(** The second loop of [unescape], on a string that passed the first. *)
Fixpoint unescapeWrite (s : string) (mode : encoding) : string :=
  match s with
  | EmptyString => EmptyString
  | String c rest =>
      if bool_decide (c = "%"%char) then
        match rest with
        | String a (String b rest2) =>
            String (unhex2 a b) (unescapeWrite rest2 mode)
        | _ => EmptyString
        end
      else if bool_decide (c = "+"%char) then
        String (if bool_decide (mode = encodeQueryComponent)
                then " "%char else "+"%char)
               (unescapeWrite rest mode)
      else String c (unescapeWrite rest mode)
  end.

Definition unescape (s : string) (mode : encoding) : Err + string :=
  match unescapeCheck s mode O false with
  | inl e => inl e
  | inr (n, hasPlus) =>
      if (n =? 0)%nat && negb hasPlus then inr s
      else inr (unescapeWrite s mode)
  end.

(** The writing loop of [escape]. *)
Fixpoint escapeWrite (s : string) (mode : encoding) : string :=
  match s with
  | EmptyString => EmptyString
  | String c rest =>
      if shouldEscape c mode then
        if bool_decide (c = " "%char) && bool_decide (mode = encodeQueryComponent)
        then String "+" (escapeWrite rest mode)
        else String "%" (String (upperhex (byte c / 16))
               (String (upperhex (byte c mod 16)) (escapeWrite rest mode)))
      else String c (escapeWrite rest mode)
  end.

(** The counting loop of [escape]: is there a byte to escape? *)
Fixpoint needsEscape (s : string) (mode : encoding) : bool :=
  match s with
  | EmptyString => false
  | String c rest => shouldEscape c mode || needsEscape rest mode
  end.

Definition escape (s : string) (mode : encoding) : string :=
  if needsEscape s mode then escapeWrite s mode else s.

(** [getscheme]: [(scheme, path)] or an error.  [i] tells whether the
    loop stands at the first byte; [seen] is the part read, last byte
    first. *)
Fixpoint getschemeLoop (rawurl rest : string) (first : bool)
         (seen : list ascii) : Err + (string * string) :=
  match rest with
  | EmptyString => inr (EmptyString, rawurl)
  | String c rest' =>
      if isAlpha c then getschemeLoop rawurl rest' false (c :: seen)
      else if isDigit c || oneOf "+-." c then
        if first then inr (EmptyString, rawurl)
        else getschemeLoop rawurl rest' false (c :: seen)
      else if bool_decide (c = ":"%char) then
        if first then inl ErrMissingProtocolScheme
        else inr (string_of_list_ascii (rev seen), rest')
      else inr (EmptyString, rawurl)
  end.

Definition getscheme (rawurl : string) : Err + (string * string) :=
  getschemeLoop rawurl rawurl true [].

(** [split(s, c, cutc)] for a separator [c] of one byte. *)
Definition split (s : string) (c : ascii) (cutc : bool) : string * string :=
  match strings.IndexByte s c with
  | None => (s, EmptyString)
  | Some i =>
      if cutc then (strings.sliceTo i s, strings.sliceFrom (S i) s)
      else (strings.sliceTo i s, strings.sliceFrom i s)
  end.

Fixpoint stringContainsCTLByte (s : string) : bool :=
  match s with
  | EmptyString => false
  | String c rest =>
      (byte c <? 32)%nat || (byte c =? 127)%nat || stringContainsCTLByte rest
  end.

(** [validOptionalPort]: empty, or a colon and digits. *)
Fixpoint allDigits (s : string) : bool :=
  match s with
  | EmptyString => true
  | String c rest => isDigit c && allDigits rest
  end.

Definition validOptionalPort (port : string) : bool :=
  match port with
  | EmptyString => true
  | String c rest => bool_decide (c = ":"%char) && allDigits rest
  end.

(** [validUserinfo]; the loop ranges over runes, and a rune outside
    ASCII is refused like any other byte that is not listed. *)
Fixpoint validUserinfo (s : string) : bool :=
  match s with
  | EmptyString => true
  | String c rest =>
      (isAlpha c || isDigit c || oneOf "-._:~!$&'()*+,;=%@" c)
      && validUserinfo rest
  end.

Fixpoint validEncodedPath (s : string) : bool :=
  match s with
  | EmptyString => true
  | String c rest =>
      (oneOf "!$&'()*+,;=:@[]%" c || negb (shouldEscape c encodePath))
      && validEncodedPath rest
  end.

Definition parseHost (host : string) : Err + string :=
  let plain :=
    match unescape host encodeHost with
    | inl e => inl e
    | inr h => inr h
    end in
  if strings.HasPrefix host "[" then
    (* an IP-Literal, with an optional zone and an optional port *)
    match strings.LastIndexByte host "]" with
    | None => inl ErrMissingBracket
    | Some i =>
        let colonPort := strings.sliceFrom (S i) host in
        if negb (validOptionalPort colonPort) then
          inl (ErrInvalidPort colonPort)
        else
          match strings.Index (strings.sliceTo i host) "%25" with
          | Some zone =>
              match unescape (strings.sliceTo zone host) encodeHost with
              | inl e => inl e
              | inr host1 =>
                  match unescape (strings.sliceFrom zone (strings.sliceTo i host))
                                 encodeZone with
                  | inl e => inl e
                  | inr host2 =>
                      match unescape (strings.sliceFrom i host) encodeHost with
                      | inl e => inl e
                      | inr host3 => inr (host1 +:+ host2 +:+ host3)
                      end
                  end
              end
          | None => plain
          end
    end
  else
    match strings.LastIndexByte host ":" with
    | Some i =>
        let colonPort := strings.sliceFrom i host in
        if negb (validOptionalPort colonPort) then
          inl (ErrInvalidPort colonPort)
        else plain
    | None => plain
    end.

Definition parseAuthority (authority : string)
  : Err + (option Userinfo * string) :=
  match strings.LastIndexByte authority "@" with
  | None =>
      match parseHost authority with
      | inl e => inl e
      | inr host => inr (None, host)
      end
  | Some i =>
      match parseHost (strings.sliceFrom (S i) authority) with
      | inl e => inl e
      | inr host =>
          let userinfo := strings.sliceTo i authority in
          if negb (validUserinfo userinfo) then inl ErrInvalidUserinfo
          else
            match strings.IndexByte userinfo ":" with
            | None =>
                match unescape userinfo encodeUserPassword with
                | inl e => inl e
                | inr u =>
                    inr (Some {| username := u; password := EmptyString;
                                 passwordSet := false |}, host)
                end
            | Some _ =>
                let (uname, pw) := split userinfo ":" true in
                match unescape uname encodeUserPassword with
                | inl e => inl e
                | inr uname =>
                    match unescape pw encodeUserPassword with
                    | inl e => inl e
                    | inr pw =>
                        inr (Some {| username := uname; password := pw;
                                     passwordSet := true |}, host)
                    end
                end
            end
      end
  end.

(** [URL.setPath]: [(Path, RawPath)]. *)
Definition setPath (p : string) : Err + (string * string) :=
  match unescape p encodePath with
  | inl e => inl e
  | inr path =>
      if bool_decide (p = escape path encodePath) then inr (path, EmptyString)
      else inr (path, p)
  end.

(** [parse(rawurl, false)] *)
Definition parse (rawurl : string) : Err + URL :=
  if stringContainsCTLByte rawurl then inl ErrInvalidControlCharacter
  else if bool_decide (rawurl = "*") then
    inr {| Scheme := ""; Opaque := ""; User := None; Host := ""; Path := "*";
           RawPath := ""; ForceQuery := false; RawQuery := ""; Fragment := "" |}
  else
    match getscheme rawurl with
    | inl e => inl e
    | inr (scheme, rest) =>
        let scheme := strings.ToLower scheme in
        let '(forceQuery, rest, rawQuery) :=
          if strings.HasSuffix rest "?" && (strings.CountByte rest "?" =? 1)%nat
          then (true, strings.sliceTo (String.length rest - 1) rest, EmptyString)
          else let (rest, q) := split rest "?" true in (false, rest, q) in
        if negb (strings.HasPrefix rest "/") && negb (bool_decide (scheme = ""))
        then
          (* rootless paths are opaque *)
          inr {| Scheme := scheme; Opaque := rest; User := None; Host := "";
                 Path := ""; RawPath := ""; ForceQuery := forceQuery;
                 RawQuery := rawQuery; Fragment := "" |}
        else if negb (strings.HasPrefix rest "/")
                && match strings.IndexByte rest ":", strings.IndexByte rest "/" with
                   | Some colon, Some slash => (colon <? slash)%nat
                   | Some colon, None => true
                   | None, _ => false
                   end
        then inl ErrFirstPathSegmentColon
        else
          let authorityAndRest :=
            if (negb (bool_decide (scheme = "")) || negb (strings.HasPrefix rest "///"))
               && strings.HasPrefix rest "//"
            then
              let (authority, rest) := split (strings.sliceFrom 2 rest) "/" false in
              match parseAuthority authority with
              | inl e => inl e
              | inr (user, host) => inr (user, host, rest)
              end
            else inr (None, EmptyString, rest) in
          match authorityAndRest with
          | inl e => inl e
          | inr (user, host, rest) =>
              match setPath rest with
              | inl e => inl e
              | inr (path, rawPath) =>
                  inr {| Scheme := scheme; Opaque := ""; User := user;
                         Host := host; Path := path; RawPath := rawPath;
                         ForceQuery := forceQuery; RawQuery := rawQuery;
                         Fragment := "" |}
              end
          end
    end.

Definition setFragment (u : URL) (frag : string) : URL :=
  {| Scheme := Scheme u; Opaque := Opaque u; User := User u; Host := Host u;
     Path := Path u; RawPath := RawPath u; ForceQuery := ForceQuery u;
     RawQuery := RawQuery u; Fragment := frag |}.

(** [url.Parse] *)
Definition Parse (rawurl : string) : Error + URL :=
  let (u, frag) := split rawurl "#" true in
  match parse u with
  | inl e => inl {| Op := "parse"; ErrURL := u; ErrErr := e |}
  | inr url =>
      if bool_decide (frag = "") then inr url
      else match unescape frag encodeFragment with
           | inl e => inl {| Op := "parse"; ErrURL := rawurl; ErrErr := e |}
           | inr f => inr (setFragment url f)
           end
  end.

(** [Userinfo.String] *)
Definition UserinfoString (u : Userinfo) : string :=
  escape (username u) encodeUserPassword
  +:+ (if passwordSet u then ":" +:+ escape (password u) encodeUserPassword
       else "").

(** [URL.EscapedPath] *)
Definition EscapedPath (u : URL) : string :=
  if negb (bool_decide (RawPath u = "")) && validEncodedPath (RawPath u)
     && match unescape (RawPath u) encodePath with
        | inr p => bool_decide (p = Path u)
        | inl _ => false
        end
  then RawPath u
  else if bool_decide (Path u = "*") then "*"
  else escape (Path u) encodePath.

(** [URL.String] *)
Definition String (u : URL) : string :=
  let buf := if bool_decide (Scheme u = "") then "" else Scheme u +:+ ":" in
  let buf :=
    if negb (bool_decide (Opaque u = "")) then buf +:+ Opaque u
    else
      let buf :=
        if negb (bool_decide (Scheme u = "")) || negb (bool_decide (Host u = ""))
           || bool_decide (is_Some (User u))
        then
          let buf :=
            if negb (bool_decide (Host u = "")) || negb (bool_decide (Path u = ""))
               || bool_decide (is_Some (User u))
            then buf +:+ "//" else buf in
          let buf :=
            match User u with
            | Some ui => buf +:+ UserinfoString ui +:+ "@"
            | None => buf
            end in
          if negb (bool_decide (Host u = ""))
          then buf +:+ escape (Host u) encodeHost else buf
        else buf in
      let path := EscapedPath u in
      let buf :=
        if negb (bool_decide (path = "")) && negb (strings.HasPrefix path "/")
           && negb (bool_decide (Host u = ""))
        then buf +:+ "/" else buf in
      let buf :=
        if bool_decide (buf = "") then
          match strings.IndexByte path ":" with
          | Some i =>
              match strings.IndexByte (strings.sliceTo i path) "/" with
              | None => buf +:+ "./"
              | Some _ => buf
              end
          | None => buf
          end
        else buf in
      buf +:+ path in
  let buf :=
    if ForceQuery u || negb (bool_decide (RawQuery u = ""))
    then buf +:+ "?" +:+ RawQuery u else buf in
  if negb (bool_decide (Fragment u = ""))
  then buf +:+ "#" +:+ escape (Fragment u) encodeFragment else buf.

End url.

(** ** Errors *)

(** [metav1.StatusReason], the reasons the handlers tell apart and a few
    transient ones. *)
Inductive StatusReason : Set :=
| StatusReasonUnknown
| StatusReasonAlreadyExists
| StatusReasonNotFound
| StatusReasonConflict
| StatusReasonServerTimeout
| StatusReasonServiceUnavailable
| StatusReasonInternalError.

#[global] Instance StatusReason_eq_dec : EqDecision StatusReason.
Proof. solve_decision. Defined.

(** Go's [error] values, as far as the handlers produce or inspect them:
    the sentinel of the [wait] package, the API server's [*StatusError],
    [*url.Error], and the values of [fmt.Errorf], kept as the format with its
    string operands ([Errorf]) and, where the last verb formats an error,
    that error ([Wrapf]). *)
Inductive error : Type :=
| ErrWaitTimeout
| StatusError (reason : StatusReason) (message : string)
| URLError (e : url.Error)
| Errorf (format : string) (args : list string)
| Wrapf (format : string) (args : list string) (cause : error).

(** [k8s.io/apimachinery/pkg/api/errors] *)
Module errors.

Definition ReasonForError (err : option error) : StatusReason :=
  match err with
  | Some (StatusError reason _) => reason
  | _ => StatusReasonUnknown
  end.

Definition IsAlreadyExists (err : option error) : bool :=
  bool_decide (ReasonForError err = StatusReasonAlreadyExists).

Definition IsNotFound (err : option error) : bool :=
  bool_decide (ReasonForError err = StatusReasonNotFound).

End errors.

(** ** API objects *)

Module metav1.

(** Modelled from the spec: the type [metav1.OwnerReference] as far as
    the design document describes it, a link from a child record to its
    parent.  The link names the parent's kind and its name. *)
Record OwnerReference : Set := {
  Kind : string;
  OwnerName : string;
}.

Record ObjectMeta : Set := {
  Name : string;
  Namespace : string;
  Finalizers : list string;
  OwnerReferences : list OwnerReference;
}.

End metav1.

Module v1alpha1.

(** Modelled from the spec: the phases of a claim and of a bucket,
    [Pending|Bound|Released|Failed]; the declarations of
    [ObjectBucketClaimStatusPhase] and [ObjectBucketStatusPhase] are in the
    [v1alpha1] package. *)
Inductive Phase : Set := Pending | Bound | Released | Failed.

Module Endpoint.
Record t : Set := {
  BucketHost : string;
  BucketPort : Z;
  BucketName : string;
  Region : string;
  SubRegion : string;
  SSL : bool;
}.
End Endpoint.

Module Authentication.
(** Only [ToMap] is used here; the value is kept as the map it yields. *)
Record t : Type := {
  ToMap : gmap string string;
}.
End Authentication.

Module Connection.
Record t : Type := {
  Endpoint : option Endpoint.t;
  Authentication : option Authentication.t;
}.
End Connection.

Module ObjectBucketClaimSpec.
Record t : Set := {
  StorageClassName : string;
  BucketName : string;
  GenerateBucketName : string;
  SSL : bool;
}.
End ObjectBucketClaimSpec.

Module ObjectBucketClaimStatus.
Record t : Set := { Phase : Phase }.
End ObjectBucketClaimStatus.

Module ObjectBucketClaim.
Record t : Set := {
  ObjectMeta : metav1.ObjectMeta;
  Spec : ObjectBucketClaimSpec.t;
  Status : ObjectBucketClaimStatus.t;
}.
Definition Name (obc : t) : string := metav1.Name (ObjectMeta obc).
Definition Namespace (obc : t) : string := metav1.Namespace (ObjectMeta obc).
End ObjectBucketClaim.

Module ObjectBucketSpec.
Record t : Type := { Connection : option Connection.t }.
End ObjectBucketSpec.

Module ObjectBucketStatus.
Record t : Set := { Phase : Phase }.
End ObjectBucketStatus.

Module ObjectBucket.
Record t : Type := {
  ObjectMeta : metav1.ObjectMeta;
  Spec : ObjectBucketSpec.t;
  Status : ObjectBucketStatus.t;
}.
Definition Name (ob : t) : string := metav1.Name (ObjectMeta ob).
End ObjectBucket.

End v1alpha1.

Module corev1.

Module ConfigMap.
Record t : Type := {
  ObjectMeta : metav1.ObjectMeta;
  Data : gmap string string;
}.
Definition Name (cm : t) : string := metav1.Name (ObjectMeta cm).
Definition Namespace (cm : t) : string := metav1.Namespace (ObjectMeta cm).
End ConfigMap.

Module Secret.
Record t : Type := {
  ObjectMeta : metav1.ObjectMeta;
  StringData : gmap string string;
}.
Definition Name (s : t) : string := metav1.Name (ObjectMeta s).
Definition Namespace (s : t) : string := metav1.Namespace (ObjectMeta s).
End Secret.

End corev1.

Import v1alpha1 corev1.

(** ** The world the handlers run in *)

(** Every object an API request can carry. *)
Inductive Object : Type :=
| SecretObject (s : Secret.t)
| ConfigMapObject (cm : ConfigMap.t)
| ClaimObject (obc : ObjectBucketClaim.t)
| BucketObject (ob : ObjectBucket.t).

Inductive Verb : Set := VCreate | VGet | VUpdate | VUpdateStatus | VDelete.

Inductive Resource : Set :=
| secrets | configmaps | objectbucketclaims | objectbuckets | anyresource.

#[global] Instance Verb_eq_dec : EqDecision Verb.
Proof. solve_decision. Defined.

#[global] Instance Resource_eq_dec : EqDecision Resource.
Proof. solve_decision. Defined.

(** One request as it leaves the client: the verb, the collection, the
    namespace the client is scoped to, the name of the object, and for a
    write the object sent. *)
Record Call : Type := {
  verb : Verb;
  resource : Resource;
  callNamespace : string;
  callName : string;
  body : option Object;
}.

(** [time.Duration], in nanoseconds.  [wait.PollImmediate] panics on an
    interval that is not positive and never times out on a timeout of zero;
    durations are positive here, as the constants of both packages are. *)
Definition Duration : Set := positive.

(** [time.Second] *)
Definition Second : Duration := 1000000000%positive.

(** Addresses of the objects the caller holds and a handler writes through. *)
Definition loc : Set := nat.

(** [server] is the state of the API server behind the client, of whatever
    type [St] a given client needs; [calls] the requests sent so far, oldest
    first; [clock] the number of times the ticker of a poll with the given
    interval fires before its timeout (it depends on the scheduler, so it is
    left open); [claims] and [buckets] the caller's objects in memory. *)
Record World (St : Type) : Type := {
  server : St;
  calls : list Call;
  clock : Duration -> Duration -> nat;
  claims : loc -> ObjectBucketClaim.t;
  buckets : loc -> ObjectBucket.t;
}.
Arguments server {St} _.
Arguments calls {St} _.
Arguments clock {St} _.
Arguments claims {St} _.
Arguments buckets {St} _.

Definition M (St A : Type) : Type := World St -> A * World St.

Definition ret {St A} (a : A) : M St A := fun w => (a, w).

Definition bind {St A B} (m : M St A) (k : A -> M St B) : M St B :=
  fun w => let (a, w') := m w in k a w'.

Notation "'let*' p ':=' m 'in' k" := (bind m (fun p => k))
  (at level 10, p pattern, m at level 100, k at level 200, only parsing).

(** A request: the server answers and the request is recorded. *)
Definition request {St R} (c : Call) (op : St -> R * St) : M St R :=
  fun w =>
    let (r, s) := op (server w) in
    (r, {| server := s; calls := calls w ++ [c]; clock := clock w;
           claims := claims w; buckets := buckets w |}).

Definition loadClaim {St} (l : loc) : M St ObjectBucketClaim.t :=
  fun w => (claims w l, w).

Definition storeClaim {St} (l : loc) (obc : ObjectBucketClaim.t) : M St unit :=
  fun w =>
    (tt, {| server := server w; calls := calls w; clock := clock w;
            claims := <[l := obc]> (claims w); buckets := buckets w |}).

Definition loadBucket {St} (l : loc) : M St ObjectBucket.t :=
  fun w => (buckets w l, w).

Definition storeBucket {St} (l : loc) (ob : ObjectBucket.t) : M St unit :=
  fun w =>
    (tt, {| server := server w; calls := calls w; clock := clock w;
            claims := claims w; buckets := <[l := ob]> (buckets w) |}).

(** ** Clients *)

(** The typed client of one collection, as client-go generates it: each
    method is a transition of the API server.  The generated methods allocate
    their result before the request is sent, so the object they return is
    never nil, whether or not the error is. *)
Record ResourceInterface (St T : Type) : Type := {
  Create : T -> St -> (T * option error) * St;
  Get : string -> St -> (T * option error) * St;
  Update : T -> St -> (T * option error) * St;
  UpdateStatus : T -> St -> (T * option error) * St;
  Delete : string -> St -> option error * St;
}.
Arguments Create {St T} _.
Arguments Get {St T} _.
Arguments Update {St T} _.
Arguments UpdateStatus {St T} _.
Arguments Delete {St T} _.

Module kubernetes.
(** [kubernetes.Interface], as far as [CoreV1()] is used. *)
Record Interface (St : Type) : Type := {
  Secrets : string -> ResourceInterface St Secret.t;
  ConfigMaps : string -> ResourceInterface St ConfigMap.t;
}.
Arguments Secrets {St} _.
Arguments ConfigMaps {St} _.
End kubernetes.

Module versioned.
(** [versioned.Interface], as far as [ObjectbucketV1alpha1()] is used. *)
Record Interface (St : Type) : Type := {
  ObjectBucketClaims : string -> ResourceInterface St ObjectBucketClaim.t;
  ObjectBuckets : ResourceInterface St ObjectBucket.t;
}.
Arguments ObjectBucketClaims {St} _.
Arguments ObjectBuckets {St} _.
End versioned.

Module client.
(** controller-runtime's [client.Client], as far as [Create] is used. *)
Record Client (St : Type) : Type := {
  ClientCreate : Object -> St -> option error * St;
}.
Arguments ClientCreate {St} _.
End client.

Module storagev1.
(** [storagev1.StorageClass], as far as a caller of
    [StorageClassForClaim] reads it. *)
Record StorageClass : Type := {
  ObjectMeta : metav1.ObjectMeta;
  Provisioner : string;
  Parameters : gmap string string;
}.
End storagev1.

Module clientreader.
(** The reading half of controller-runtime's [client.Client], as far as
    [Get] of a StorageClass is used.  [Get] fills the object it is handed;
    here that object is the first component of the answer. *)
Record Reader (St : Type) : Type := {
  ReaderGet : string -> string -> St -> (storagev1.StorageClass * option error) * St;
}.
Arguments ReaderGet {St} _.
End clientreader.

Definition objectName (o : Object) : string :=
  match o with
  | SecretObject s => Secret.Name s
  | ConfigMapObject cm => ConfigMap.Name cm
  | ClaimObject obc => ObjectBucketClaim.Name obc
  | BucketObject ob => ObjectBucket.Name ob
  end.

(** The requests of a typed client, recorded as they are sent. *)
Section Requests.
Context {St T : Type}.
Variable res : Resource.
Variable ns : string.
Variable inj : T -> Object.
Variable i : ResourceInterface St T.

Definition mkCall (v : Verb) (name : string) (b : option Object) : Call :=
  {| verb := v; resource := res; callNamespace := ns; callName := name;
     body := b |}.

Definition doCreate (o : T) : M St (T * option error) :=
  request (mkCall VCreate (objectName (inj o)) (Some (inj o))) (Create i o).

Definition doGet (name : string) : M St (T * option error) :=
  request (mkCall VGet name None) (Get i name).

Definition doUpdate (o : T) : M St (T * option error) :=
  request (mkCall VUpdate (objectName (inj o)) (Some (inj o))) (Update i o).

Definition doUpdateStatus (o : T) : M St (T * option error) :=
  request (mkCall VUpdateStatus (objectName (inj o)) (Some (inj o)))
          (UpdateStatus i o).

Definition doDelete (name : string) : M St (option error) :=
  request (mkCall VDelete name None) (Delete i name).
End Requests.

(** ** [k8s.io/apimachinery/pkg/util/wait] *)

Module wait.
Section wait.
Context {St L : Type}.

(** [wait.ConditionFunc].  [L] holds the variables of the enclosing
    function that the closure assigns. *)
Definition ConditionFunc : Type := L -> M St (L * (bool * option error)).

(** [WaitFor]: the condition runs once for every value the channel
    delivers and once more when the channel is closed; an error of
    the condition ends the wait with that error, [true] ends it with
    success, and the closed channel ends it with [ErrWaitTimeout]. *)
Fixpoint WaitFor (ticks : nat) (fn : ConditionFunc) (l : L)
  : M St (L * option error) :=
  let* (l', (ok, err)) := fn l in
  match err with
  | Some e => ret (l', Some e)
  | None =>
      if ok then ret (l', None)
      else match ticks with
           | O => ret (l', Some ErrWaitTimeout)
           | S n => WaitFor n fn l'
           end
  end.

(** [PollImmediate]: the condition is checked before any waiting and
    then at every tick of the poller until the timeout. *)
Definition PollImmediate (interval timeout : Duration)
           (condition : ConditionFunc) (l : L) : M St (L * option error) :=
  let* (l', (done, err)) := condition l in
  match err with
  | Some e => ret (l', Some e)
  | None =>
      if done then ret (l', None)
      else fun w => WaitFor (clock w interval timeout) condition l' w
  end.
End wait.
End wait.

(** The collections the handlers talk to, each request recorded. *)
Section TypedRequests.
Context {St : Type}.

Definition Secrets_Create (c : kubernetes.Interface St) (ns : string) :=
  doCreate secrets ns SecretObject (kubernetes.Secrets c ns).
Definition Secrets_Get (c : kubernetes.Interface St) (ns : string) :=
  doGet secrets ns (kubernetes.Secrets c ns).
Definition Secrets_Update (c : kubernetes.Interface St) (ns : string) :=
  doUpdate secrets ns SecretObject (kubernetes.Secrets c ns).

Definition ConfigMaps_Create (c : kubernetes.Interface St) (ns : string) :=
  doCreate configmaps ns ConfigMapObject (kubernetes.ConfigMaps c ns).
Definition ConfigMaps_Get (c : kubernetes.Interface St) (ns : string) :=
  doGet configmaps ns (kubernetes.ConfigMaps c ns).
Definition ConfigMaps_Update (c : kubernetes.Interface St) (ns : string) :=
  doUpdate configmaps ns ConfigMapObject (kubernetes.ConfigMaps c ns).

Definition ObjectBucketClaims_Get (c : versioned.Interface St) (ns : string) :=
  doGet objectbucketclaims ns (versioned.ObjectBucketClaims c ns).
Definition ObjectBucketClaims_Update (c : versioned.Interface St) (ns : string) :=
  doUpdate objectbucketclaims ns ClaimObject (versioned.ObjectBucketClaims c ns).
Definition ObjectBucketClaims_UpdateStatus (c : versioned.Interface St) (ns : string) :=
  doUpdateStatus objectbucketclaims ns ClaimObject
                 (versioned.ObjectBucketClaims c ns).

(** ObjectBuckets are cluster-scoped: no namespace. *)
Definition ObjectBuckets_Create (c : versioned.Interface St) :=
  doCreate objectbuckets "" BucketObject (versioned.ObjectBuckets c).
Definition ObjectBuckets_Update (c : versioned.Interface St) :=
  doUpdate objectbuckets "" BucketObject (versioned.ObjectBuckets c).
Definition ObjectBuckets_UpdateStatus (c : versioned.Interface St) :=
  doUpdateStatus objectbuckets "" BucketObject (versioned.ObjectBuckets c).
Definition ObjectBuckets_Delete (c : versioned.Interface St) :=
  doDelete objectbuckets "" (versioned.ObjectBuckets c).

Definition Client_Create (c : client.Client St) (obj : Object)
  : M St (option error) :=
  request {| verb := VCreate; resource := anyresource; callNamespace := "";
             callName := objectName obj; body := Some obj |}
          (client.ClientCreate c obj).
End TypedRequests.

(** [client.Get(ctx, types.NamespacedName{Namespace, Name}, class)] *)
Definition Reader_Get {St : Type} (c : clientreader.Reader St) (ns name : string)
  : M St (storagev1.StorageClass * option error) :=
  request {| verb := VGet; resource := anyresource; callNamespace := ns;
             callName := name; body := None |}
          (clientreader.ReaderGet c ns name).

(** ** Package [provisioner]: resourcehandlers.go *)

Module provisioner.

(** how long to wait for a single create API object call *)
Definition defaultRetryBaseInterval : Duration := (Second * 3)%positive.
(** how long in total to try to create an API object *)
Definition defaultRetryTimeout : Duration := (Second * 30)%positive.

Definition bucketName : string := "BUCKET_NAME".
Definition bucketHost : string := "BUCKET_HOST".
Definition bucketPort : string := "BUCKET_PORT".
Definition bucketRegion : string := "BUCKET_REGION".
Definition bucketSubRegion : string := "BUCKET_SUBREGION".
Definition bucketSSL : string := "BUCKET_SSL".

(** [api.Domain] is declared in [pkg/provisioner/api]; it is given the
    value that [DomainPrefix] has in package [util].  Nothing below
    depends on the value. *)
Definition Domain : string := "objectbucket.io".

(** finalizer is applied to all resources generated by the provisioner *)
Definition finalizer : string := Domain +:+ "/finalizer".

(** Modelled from the spec: [makeOwnerReference] (declared in another file
    of the package) builds the ownership link from a Secret or ConfigMap
    back to its claim. *)
Definition makeOwnerReference (obc : ObjectBucketClaim.t)
  : metav1.OwnerReference :=
  {| metav1.Kind := "ObjectBucketClaim";
     metav1.OwnerName := ObjectBucketClaim.Name obc |}.

(** Modelled from the spec: [removeFinalizer] (declared in another file of
    the package) removes the finalizer token from the finalizer set of
    the object. *)
Definition removeFinalizer (m : metav1.ObjectMeta) : metav1.ObjectMeta :=
  {| metav1.Name := metav1.Name m;
     metav1.Namespace := metav1.Namespace m;
     metav1.Finalizers :=
       filter (fun f => f <> finalizer) (metav1.Finalizers m);
     metav1.OwnerReferences := metav1.OwnerReferences m |}.

Definition removeFinalizerConfigMap (cm : ConfigMap.t) : ConfigMap.t :=
  {| ConfigMap.ObjectMeta := removeFinalizer (ConfigMap.ObjectMeta cm);
     ConfigMap.Data := ConfigMap.Data cm |}.

Definition removeFinalizerSecret (s : Secret.t) : Secret.t :=
  {| Secret.ObjectMeta := removeFinalizer (Secret.ObjectMeta s);
     Secret.StringData := Secret.StringData s |}.

Definition removeFinalizerClaim (obc : ObjectBucketClaim.t)
  : ObjectBucketClaim.t :=
  {| ObjectBucketClaim.ObjectMeta :=
       removeFinalizer (ObjectBucketClaim.ObjectMeta obc);
     ObjectBucketClaim.Spec := ObjectBucketClaim.Spec obc;
     ObjectBucketClaim.Status := ObjectBucketClaim.Status obc |}.

Definition removeFinalizerBucket (ob : ObjectBucket.t) : ObjectBucket.t :=
  {| ObjectBucket.ObjectMeta := removeFinalizer (ObjectBucket.ObjectMeta ob);
     ObjectBucket.Spec := ObjectBucket.Spec ob;
     ObjectBucket.Status := ObjectBucket.Status ob |}.

(** [obc.Status.Phase = phase] *)
Definition setClaimPhase (phase : Phase) (obc : ObjectBucketClaim.t)
  : ObjectBucketClaim.t :=
  {| ObjectBucketClaim.ObjectMeta := ObjectBucketClaim.ObjectMeta obc;
     ObjectBucketClaim.Spec := ObjectBucketClaim.Spec obc;
     ObjectBucketClaim.Status := {| ObjectBucketClaimStatus.Phase := phase |} |}.

(** [ob.Status.Phase = phase] *)
Definition setBucketPhase (phase : Phase) (ob : ObjectBucket.t)
  : ObjectBucket.t :=
  {| ObjectBucket.ObjectMeta := ObjectBucket.ObjectMeta ob;
     ObjectBucket.Spec := ObjectBucket.Spec ob;
     ObjectBucket.Status := {| ObjectBucketStatus.Phase := phase |} |}.

(** newBucketConfigMap returns a config map from a given endpoint and
    ObjectBucketClaim. *)
Definition newBucketConfigMap (ep : option Endpoint.t)
           (obc : option ObjectBucketClaim.t)
  : option ConfigMap.t * option error :=
  match ep with
  | None => (None, Some (Errorf "cannot construct configMap, got nil Endpoint" []))
  | Some ep =>
      match obc with
      | None => (None, Some (Errorf "cannot construct configMap, got nil OBC" []))
      | Some obc =>
          (Some {|
             ConfigMap.ObjectMeta := {|
               metav1.Name := ObjectBucketClaim.Name obc;
               metav1.Namespace := ObjectBucketClaim.Namespace obc;
               metav1.Finalizers := [finalizer];
               metav1.OwnerReferences := [makeOwnerReference obc] |};
             ConfigMap.Data :=
               <[bucketName := Endpoint.BucketName ep]>
               (<[bucketHost := Endpoint.BucketHost ep]>
               (<[bucketPort := strconv.Itoa (Endpoint.BucketPort ep)]>
               (<[bucketSSL := strconv.FormatBool (Endpoint.SSL ep)]>
               (<[bucketRegion := Endpoint.Region ep]>
               (<[bucketSubRegion := Endpoint.SubRegion ep]> ∅))))) |},
           None)
      end
  end.

(** newCredentialsSecret returns a secret with data appropriate to the
    supported authentication method. *)
Definition newCredentialsSecret (obc : option ObjectBucketClaim.t)
           (auth : option Authentication.t)
  : option Secret.t * option error :=
  match obc with
  | None => (None, Some (Errorf "ObjectBucketClaim required to generate secret" []))
  | Some obc =>
      match auth with
      | None => (None, Some (Errorf "got nil authentication, nothing to do" []))
      | Some auth =>
          (Some {|
             Secret.ObjectMeta := {|
               metav1.Name := ObjectBucketClaim.Name obc;
               metav1.Namespace := ObjectBucketClaim.Namespace obc;
               metav1.Finalizers := [finalizer];
               metav1.OwnerReferences := [makeOwnerReference obc] |};
             Secret.StringData := Authentication.ToMap auth |},
           None)
      end
  end.

(** [err == nil] *)
Definition isNil (err : option error) : bool :=
  match err with
  | None => true
  | Some _ => false
  end.

Section handlers.
Context {St : Type}.

(** createObjectBucket creates an OB based on the passed-in ob spec.
    The closure assigns the named result [result]; it is nil until the
    first call of the closure returns. *)
Definition createObjectBucket (ob : ObjectBucket.t)
           (c : versioned.Interface St) (retryInterval retryTimeout : Duration)
  : M St (option ObjectBucket.t * option error) :=
  wait.PollImmediate retryInterval retryTimeout
    (fun _ : option ObjectBucket.t =>
       let* (result, err) := ObjectBuckets_Create c ob in
       let err := if errors.IsAlreadyExists err then None else err in
       ret (Some result, (isNil err, err)))
    None.

(** The closure assigns [secret], so every further attempt sends what
    the attempt before it returned.  When [newCredentialsSecret]
    returns no error, [obc] is not nil. *)
Definition createSecret (obc : option ObjectBucketClaim.t)
           (auth : option Authentication.t) (c : kubernetes.Interface St)
           (retryInterval retryTimeout : Duration)
  : M St (option Secret.t * option error) :=
  match newCredentialsSecret obc auth, obc with
  | (Some secret, None), Some obc =>
      let* (secret, err) :=
        wait.PollImmediate retryInterval retryTimeout
          (fun secret : Secret.t =>
             let* (secret, err) :=
               Secrets_Create c (ObjectBucketClaim.Namespace obc) secret in
             match err with
             | Some e =>
                 if errors.IsAlreadyExists (Some e)
                 then ret (secret, (true, Some e))
                 else ret (secret, (false, None))
             | None => ret (secret, (true, None))
             end)
          secret in
      ret (Some secret, err)
  | (_, err), _ => ret (None, err)
  end.

Definition createConfigMap (obc : option ObjectBucketClaim.t)
           (ep : option Endpoint.t) (c : kubernetes.Interface St)
           (retryInterval retryTimeout : Duration)
  : M St (option ConfigMap.t * option error) :=
  match newBucketConfigMap ep obc, obc with
  | (Some configMap, None), Some obc =>
      let* (configMap, err) :=
        wait.PollImmediate retryInterval retryTimeout
          (fun configMap : ConfigMap.t =>
             let* (configMap, err) :=
               ConfigMaps_Create c (ObjectBucketClaim.Namespace obc) configMap in
             match err with
             | Some e =>
                 if errors.IsAlreadyExists (Some e)
                 then ret (configMap, (true, Some e))
                 else ret (configMap, (false, None))
             | None => ret (configMap, (true, None))
             end)
          configMap in
      ret (Some configMap, err)
  | (_, err), _ => ret (None, err)
  end.

(** Only the finalizer needs to be removed. *)
Definition releaseConfigMap (cm : option ConfigMap.t)
           (c : kubernetes.Interface St) : M St (option error) :=
  match cm with
  | None => ret None
  | Some cm =>
      let* (cm, err) :=
        ConfigMaps_Get c (ConfigMap.Namespace cm) (ConfigMap.Name cm) in
      match err with
      | Some e => ret (Some e)
      | None =>
          let cm := removeFinalizerConfigMap cm in
          let* (cm, err) := ConfigMaps_Update c (ConfigMap.Namespace cm) cm in
          match err with
          | Some e => ret (Some e)
          | None => ret None
          end
      end
  end.

(** Only the finalizer needs to be removed. *)
Definition releaseSecret (sec : option Secret.t)
           (c : kubernetes.Interface St) : M St (option error) :=
  match sec with
  | None => ret None
  | Some sec =>
      let* (sec, err) :=
        Secrets_Get c (Secret.Namespace sec) (Secret.Name sec) in
      match err with
      | Some e => ret (Some e)
      | None =>
          let sec := removeFinalizerSecret sec in
          let* (sec, err) := Secrets_Update c (Secret.Namespace sec) sec in
          match err with
          | Some e => ret (Some e)
          | None => ret None
          end
      end
  end.

(** Remove the finalizer allowing the OBC to finally be deleted. *)
Definition releaseOBC (obc : option ObjectBucketClaim.t)
           (c : versioned.Interface St) : M St (option error) :=
  match obc with
  | None => ret None
  | Some obc =>
      let obcNsName :=
        ObjectBucketClaim.Namespace obc +:+ "/" +:+ ObjectBucketClaim.Name obc in
      let* (obc, err) :=
        ObjectBucketClaims_Get c (ObjectBucketClaim.Namespace obc)
                               (ObjectBucketClaim.Name obc) in
      match err with
      | Some e =>
          ret (Some (Wrapf "unable to Get obc %q in order to remove finalizer: %v"
                           [obcNsName] e))
      | None =>
          let obc := removeFinalizerClaim obc in
          let* (obc, err) :=
            ObjectBucketClaims_Update c (ObjectBucketClaim.Namespace obc) obc in
          match err with
          | Some e =>
              ret (Some (Wrapf "unable to Update obc %q to reflect removed finalizer: %v"
                               [obcNsName] e))
          | None => ret None
          end
      end
  end.

(** The OB does not have an ownerReference and must be explicitly
    deleted after its finalizer is removed.  [removeFinalizer(ob)]
    writes to the caller's object; [Update] is then sent that object,
    and its result replaces [ob]. *)
Definition deleteObjectBucket (ob : option loc)
           (c : versioned.Interface St) : M St (option error) :=
  match ob with
  | None => ret None
  | Some l =>
      let* o := loadBucket l in
      let* _ := storeBucket l (removeFinalizerBucket o) in
      let* o := loadBucket l in
      let* (ob, err) := ObjectBuckets_Update c o in
      match err with
      | Some e => ret (Some e)
      | None =>
          let* err := ObjectBuckets_Delete c (ObjectBucket.Name ob) in
          match err with
          | Some e =>
              if errors.IsNotFound (Some e) then ret None
              else ret (Some (Wrapf "error deleting ObjectBucket %q: %v"
                                    [ObjectBucket.Name ob] e))
          | None => ret None
          end
      end
  end.

Definition updateClaim (c : versioned.Interface St)
           (obc : ObjectBucketClaim.t)
           (retryInterval retryTimeout : Duration)
  : M St (option ObjectBucketClaim.t * option error) :=
  wait.PollImmediate retryInterval retryTimeout
    (fun _ : option ObjectBucketClaim.t =>
       let* (result, err) :=
         ObjectBucketClaims_Update c (ObjectBucketClaim.Namespace obc) obc in
       ret (Some result, (isNil err, err)))
    None.

(** [obc] is the address of the caller's claim: the phase is written to
    it before the poll starts, and every attempt sends the object as
    it is at that address. *)
Definition updateObjectBucketClaimPhase (c : versioned.Interface St)
           (obc : loc) (phase : Phase)
           (retryInterval retryTimeout : Duration)
  : M St (option ObjectBucketClaim.t * option error) :=
  let* o := loadClaim obc in
  let* _ := storeClaim obc (setClaimPhase phase o) in
  wait.PollImmediate retryInterval retryTimeout
    (fun _ : option ObjectBucketClaim.t =>
       let* o := loadClaim obc in
       let* (result, err) :=
         ObjectBucketClaims_UpdateStatus c (ObjectBucketClaim.Namespace o) o in
       ret (Some result, (isNil err, err)))
    None.

Definition updateObjectBucketPhase (c : versioned.Interface St)
           (ob : loc) (phase : Phase)
           (retryInterval retryTimeout : Duration)
  : M St (option ObjectBucket.t * option error) :=
  let* o := loadBucket ob in
  let* _ := storeBucket ob (setBucketPhase phase o) in
  wait.PollImmediate retryInterval retryTimeout
    (fun _ : option ObjectBucket.t =>
       let* o := loadBucket ob in
       let* (result, err) := ObjectBuckets_UpdateStatus c o in
       ret (Some result, (isNil err, err)))
    None.
End handlers.

End provisioner.

(** ** Package [util] *)

Module util.

Definition DefaultRetryBaseInterval : Duration := (Second * 10)%positive.
Definition DefaultRetryTimeout : Duration := (Second * 360)%positive.

Definition BucketName : string := "BUCKET_NAME".
Definition BucketHost : string := "BUCKET_HOST".
Definition BucketPort : string := "BUCKET_PORT".
Definition BucketRegion : string := "BUCKET_REGION".
Definition BucketSubRegion : string := "BUCKET_SUBREGION".
Definition BucketURL : string := "BUCKET_URL".
Definition BucketSSL : string := "BUCKET_SSL".

Definition DomainPrefix : string := "objectbucket.io".
Definition Finalizer : string := DomainPrefix +:+ "/finalizer".


(** NewCredentialsSecret returns a secret with data appropriate to the
    supported authentication method. *)
Definition NewCredentialsSecret (obc : option ObjectBucketClaim.t)
           (auth : option Authentication.t)
  : option Secret.t * option error :=
  match obc with
  | None => (None, Some (Errorf "ObjectBucketClaim required to generate secret" []))
  | Some obc =>
      match auth with
      | None => (None, Some (Errorf "ObjectBucket required to generate secret" []))
      | Some auth =>
          (Some {|
             Secret.ObjectMeta := {|
               metav1.Name := ObjectBucketClaim.Name obc;
               metav1.Namespace := ObjectBucketClaim.Namespace obc;
               metav1.Finalizers := [Finalizer];
               metav1.OwnerReferences := [] |};
             Secret.StringData := Authentication.ToMap auth |},
           None)
      end
  end.

(** The string that [NewBucketConfigMap] hands to [url.Parse]:
    [host] after its two assignments, a slash, and [bucketPath]. *)
Definition bucketPath (ep : Endpoint.t) : string :=
  path.Join [Endpoint.Region ep; Endpoint.SubRegion ep; Endpoint.BucketName ep].

Definition rawBucketURL (ep : Endpoint.t) (obc : ObjectBucketClaim.t) : string :=
  let host :=
    if ObjectBucketClaimSpec.SSL (ObjectBucketClaim.Spec obc)
    then "https://" +:+ Endpoint.BucketHost ep
    else "http://" +:+ Endpoint.BucketHost ep in
  let host :=
    if 0 <? Endpoint.BucketPort ep
    then host +:+ ":" +:+ strconv.Itoa (Endpoint.BucketPort ep)
    else host in
  host +:+ "/" +:+ bucketPath ep.

Definition NewBucketConfigMap (ep : option Endpoint.t)
           (obc : option ObjectBucketClaim.t)
  : option ConfigMap.t * option error :=
  match ep, obc with
  | Some ep, Some obc =>
      match url.Parse (rawBucketURL ep obc) with
      | inl err =>
          (None, Some (Wrapf "malformed bucket url %q: %v" [bucketPath ep]
                             (URLError err)))
      | inr bucketURL =>
          (Some {|
             ConfigMap.ObjectMeta := {|
               metav1.Name := ObjectBucketClaim.Name obc;
               metav1.Namespace := ObjectBucketClaim.Namespace obc;
               metav1.Finalizers := [];
               metav1.OwnerReferences := [] |};
             ConfigMap.Data :=
               <[BucketName := ObjectBucketClaimSpec.BucketName
                                 (ObjectBucketClaim.Spec obc)]>
               (<[BucketHost := Endpoint.BucketHost ep]>
               (<[BucketPort := strconv.Itoa (Endpoint.BucketPort ep)]>
               (<[BucketSSL := strconv.FormatBool (Endpoint.SSL ep)]>
               (<[BucketRegion := Endpoint.Region ep]>
               (<[BucketSubRegion := Endpoint.SubRegion ep]>
               (<[BucketURL := url.String bucketURL]> ∅)))))) |},
           None)
      end
  | _, _ =>
      (None, Some (Errorf "v1alpha1.Endpoint and v1alpha1.ObjectbucketClaim cannot be nil" []))
  end.

Definition CreateUntilDefaultTimeout {St : Type} (obj : Object)
           (c : option (client.Client St)) : M St (option error) :=
  match c with
  | None => ret (Some (Errorf "error creating object, nil client" []))
  | Some c =>
      let* (_, err) :=
        wait.PollImmediate DefaultRetryBaseInterval DefaultRetryTimeout
          (fun _ : unit =>
             let* err := Client_Create c obj in
             match err with
             | Some e =>
                 if negb (errors.IsAlreadyExists (Some e))
                 then ret (tt, (false, Some e))
                 else ret (tt, (true, None))
             | None => ret (tt, (true, None))
             end)
          tt in
      ret err
  end.


(** [StorageClassForClaim]: the class a claim names, nil without an
    error when it names none.  Storage classes are cluster-scoped: the
    namespace of the key is empty. *)
Definition StorageClassForClaim {St : Type} (obc : option ObjectBucketClaim.t)
           (c : clientreader.Reader St)
  : M St (option storagev1.StorageClass * option error) :=
  match obc with
  | None => ret (None, Some (Errorf "got nil ObjectBucketClaim ptr" []))
  | Some obc =>
      let name := ObjectBucketClaimSpec.StorageClassName (ObjectBucketClaim.Spec obc) in
      if bool_decide (name = "") then ret (None, None)
      else
        let* (class, err) := Reader_Get c "" name in
        match err with
        | Some e =>
            ret (None, Some (Wrapf "error getting storage class %q: %v" [name] e))
        | None => ret (Some class, None)
        end
  end.

(** [NewObjectBucket].  The literal leaves [Status] at its zero value; the
    phases of this development are the four of the design document, with
    no constant for the empty phase, so the zero status is the argument
    [zero].  The name is [fmt.Sprintf("obc-%s-%s", obc.Namespace, obc.Name)]. *)
Definition NewObjectBucket (zero : ObjectBucketStatus.t)
           (obc : ObjectBucketClaim.t) (connection : option Connection.t)
  : ObjectBucket.t :=
  {| ObjectBucket.ObjectMeta :=
       {| metav1.Name := "obc-" +:+ ObjectBucketClaim.Namespace obc
                         +:+ "-" +:+ ObjectBucketClaim.Name obc;
          metav1.Namespace := "";
          metav1.Finalizers := [];
          metav1.OwnerReferences := [] |};
     ObjectBucket.Spec := {| ObjectBucketSpec.Connection := connection |};
     ObjectBucket.Status := zero |}.

Definition suffixLen : nat := 5.

(** [GenerateBucketName]; [randString] is [rand.String], the source of
    random names of a given length. *)
Definition GenerateBucketName (randString : nat -> string) (prefix : string)
  : string :=
  let suf := randString suffixLen in
  if bool_decide (prefix = "") then suf
  else prefix +:+ "-" +:+ suf.

End util.

(** ** Reading a run *)

Section Runs.
Context {St A : Type}.

(** The error a handler returned, and the world it left. *)
Definition errOf (r : (A * option error) * World St) : option error :=
  snd (fst r).
Definition valOf (r : (A * option error) * World St) : A := fst (fst r).
Definition worldOf {B : Type} (r : B * World St) : World St := snd r.

(** The requests sent between two worlds of one run. *)
Definition sent (w w' : World St) : list Call :=
  drop (length (calls w)) (calls w').
End Runs.

(** The one [UpdateStatus] request of a phase updater. *)
Definition claimStatusCall (o : ObjectBucketClaim.t) : Call :=
  {| verb := VUpdateStatus; resource := objectbucketclaims;
     callNamespace := ObjectBucketClaim.Namespace o;
     callName := ObjectBucketClaim.Name o; body := Some (ClaimObject o) |}.

Definition bucketStatusCall (o : ObjectBucket.t) : Call :=
  {| verb := VUpdateStatus; resource := objectbuckets; callNamespace := "";
     callName := ObjectBucket.Name o; body := Some (BucketObject o) |}.

(** What a request adds to the world. *)
Definition after {St} (w : World St) (s : St) (c : Call) : World St :=
  {| server := s; calls := calls w ++ [c]; clock := clock w;
     claims := claims w; buckets := buckets w |}.

(** A condition that sends one request and asks to be run again. *)
Definition retrying {St L : Type} (fn : @wait.ConditionFunc St L) : Prop :=
  forall l w, exists l' w',
    fn l w = ((l', (false, None)), w')
    /\ length (calls w') = S (length (calls w))
    /\ clock w' = clock w.

(** Every [Create] of the collection fails, and never with "already
    exists". *)
Definition alwaysTransient {St T : Type} (i : ResourceInterface St T) : Prop :=
  forall o s, exists e,
    snd (fst (Create i o s)) = Some e
    /\ errors.IsAlreadyExists (Some e) = false.

(** The condition that [createSecret] and [createConfigMap] hand to the
    poll, over the request [create] it wraps: "already exists" ends the poll
    with that error, any other error asks for another attempt. *)
Definition retryCondition {St T : Type} (create : T -> M St (T * option error))
  : @wait.ConditionFunc St T :=
  fun o =>
    let* (o, err) := create o in
    match err with
    | Some e =>
        if errors.IsAlreadyExists (Some e)
        then ret (o, (true, Some e))
        else ret (o, (false, None))
    | None => ret (o, (true, None))
    end.


(** The bucket URL with the empty segments left out:
    [scheme://host[:port]/] and the non-empty ones of region, subregion and
    bucket name, joined by slashes. *)
Definition joinedBucketURL (ep : Endpoint.t) (obc : ObjectBucketClaim.t) : string :=
  (if ObjectBucketClaimSpec.SSL (ObjectBucketClaim.Spec obc)
   then "https" else "http")
  +:+ "://" +:+ Endpoint.BucketHost ep
  +:+ (if 0 <? Endpoint.BucketPort ep
       then ":" +:+ strconv.Itoa (Endpoint.BucketPort ep) else "")
  +:+ "/"
  +:+ strings.Join
        (filter (fun seg => seg <> "")
                [Endpoint.Region ep; Endpoint.SubRegion ep; Endpoint.BucketName ep])
        "/".

(** ** Letter case *)

(** Equality of two bytes up to the case of an ASCII letter, the way
    [strings.EqualFold] decides it for bytes below [utf8.RuneSelf]: equal,
    or the smaller one is an upper-case letter and the larger one is that
    letter in lower case. *)
Definition eqFoldByte (a b : ascii) : bool :=
  let sr := Nat.min (nat_of_ascii a) (nat_of_ascii b) in
  let tr := Nat.max (nat_of_ascii a) (nat_of_ascii b) in
  ((sr =? tr) || ((65 <=? sr) && (sr <=? 90) && (tr =? sr + 32)))%nat.

(** Equality of two strings up to letter case. *)
Fixpoint EqualFold (s t : string) : bool :=
  match s, t with
  | EmptyString, EmptyString => true
  | String a s', String b t' => eqFoldByte a b && EqualFold s' t'
  | _, _ => false
  end.

(** ** Plain names

    The bytes that neither [path.Clean] nor [net/url] gives a meaning to:
    letters, digits and the marks [-], [_], [.], [~]. *)

Definition plainByte (c : ascii) : bool :=
  url.isAlpha c || url.isDigit c || url.oneOf "-_.~" c.

(** Every byte of the string is in the class [p]. *)
Fixpoint allBytes (p : ascii -> bool) (s : string) : bool :=
  match s with
  | EmptyString => true
  | String c s' => p c && allBytes p s'
  end.

Definition plain (s : string) : bool := allBytes plainByte s.

(** The bytes of a plain host with an optional port, of a path of plain
    segments, and of a URL made of them. *)
Definition authByte (c : ascii) : bool := plainByte c || bool_decide (c = ":"%char).
Definition pathByte (c : ascii) : bool := plainByte c || bool_decide (c = "/"%char).
Definition urlByte (c : ascii) : bool := authByte c || pathByte c.

(** A path segment that [path.Clean] keeps as it is: not empty, plain,
    and neither [.] nor [..]. *)
Definition plainSegment (s : string) : bool :=
  plain s && negb (bool_decide (s = "")) && negb (bool_decide (s = "."))
  && negb (bool_decide (s = "..")).

(** The URL of a scheme, an authority and a rooted path, nothing else. *)
Definition plainURL (scheme authority p : string) : url.URL :=
  {| url.Scheme := scheme; url.Opaque := ""; url.User := None;
     url.Host := authority; url.Path := "/" +:+ p; url.RawPath := "";
     url.ForceQuery := false; url.RawQuery := ""; url.Fragment := "" |}.

(** The separator that the loop of [path.Clean] writes before an element:
    none at the start of the buffer. *)
Definition separated (out : list ascii) : list ascii :=
  match out with
  | [] => []
  | _ => "/"%char :: out
  end.

(** ** The URL as the design document composes it

    [scheme://host[:port]/region/subregion/bucketName], with [https] when
    the claim asks for SSL and no port segment when the port is not
    positive. *)
Definition specBucketURL (ep : Endpoint.t) (obc : ObjectBucketClaim.t) : string :=
  (if ObjectBucketClaimSpec.SSL (ObjectBucketClaim.Spec obc)
   then "https" else "http")
  +:+ "://" +:+ Endpoint.BucketHost ep
  +:+ (if 0 <? Endpoint.BucketPort ep
       then ":" +:+ strconv.Itoa (Endpoint.BucketPort ep) else "")
  +:+ "/" +:+ Endpoint.Region ep
  +:+ "/" +:+ Endpoint.SubRegion ep
  +:+ "/" +:+ Endpoint.BucketName ep.

(** What a reader of the URL takes from it: whether its scheme is
    [https], and its last path segment. *)
Definition urlIsHTTPS (u : string) : bool := strings.HasPrefix u "https:".

Definition urlLastSegment (u : string) : string :=
  match strings.LastIndexByte u "/" with
  | Some i => strings.sliceFrom (S i) u
  | None => u
  end.

(** ** Example stores

    A server that counts the requests it has answered and answers request
    number [n] with the error [script n]; a write is answered with the
    object that was sent, a read with a fixed object. *)

Module fake.

Definition resource {T : Type} (script : nat -> option error) (stored : T)
  : ResourceInterface nat T :=
  {| Create := fun o n => ((o, script n), S n);
     Get := fun _ n => ((stored, script n), S n);
     Update := fun o n => ((o, script n), S n);
     UpdateStatus := fun o n => ((o, script n), S n);
     Delete := fun _ n => (script n, S n) |}.

Definition meta (ns name : string) (fs : list string) : metav1.ObjectMeta :=
  {| metav1.Name := name; metav1.Namespace := ns; metav1.Finalizers := fs;
     metav1.OwnerReferences := [] |}.

Definition claim (ns name bucket : string) (ssl : bool) : ObjectBucketClaim.t :=
  {| ObjectBucketClaim.ObjectMeta := meta ns name [provisioner.finalizer];
     ObjectBucketClaim.Spec :=
       {| ObjectBucketClaimSpec.StorageClassName := "";
          ObjectBucketClaimSpec.BucketName := bucket;
          ObjectBucketClaimSpec.GenerateBucketName := "";
          ObjectBucketClaimSpec.SSL := ssl |};
     ObjectBucketClaim.Status := {| ObjectBucketClaimStatus.Phase := Pending |} |}.

Definition bucket (name : string) : ObjectBucket.t :=
  {| ObjectBucket.ObjectMeta := meta "" name [provisioner.finalizer];
     ObjectBucket.Spec := {| ObjectBucketSpec.Connection := None |};
     ObjectBucket.Status := {| ObjectBucketStatus.Phase := Pending |} |}.

Definition secret (ns name : string) : Secret.t :=
  {| Secret.ObjectMeta := meta ns name [provisioner.finalizer];
     Secret.StringData := ∅ |}.

Definition configMap (ns name : string) : ConfigMap.t :=
  {| ConfigMap.ObjectMeta := meta ns name [provisioner.finalizer];
     ConfigMap.Data := ∅ |}.

Definition endpoint (host : string) (port : Z) (region subRegion name : string)
           (ssl : bool) : Endpoint.t :=
  {| Endpoint.BucketHost := host; Endpoint.BucketPort := port;
     Endpoint.BucketName := name; Endpoint.Region := region;
     Endpoint.SubRegion := subRegion; Endpoint.SSL := ssl |}.

Definition auth : Authentication.t :=
  {| Authentication.ToMap := {[ "AWS_ACCESS_KEY_ID" := "key" ]} |}.

Definition kube (script : nat -> option error) : kubernetes.Interface nat :=
  {| kubernetes.Secrets := fun ns => resource script (secret ns "c1");
     kubernetes.ConfigMaps := fun ns => resource script (configMap ns "c1") |}.

Definition versioned (script : nat -> option error) : versioned.Interface nat :=
  {| versioned.ObjectBucketClaims :=
       fun ns => resource script (claim ns "c1" "b1" true);
     versioned.ObjectBuckets := resource script (bucket "obc-ns1-c1") |}.

Definition storageClass (name : string) : storagev1.StorageClass :=
  {| storagev1.ObjectMeta := meta "" name [];
     storagev1.Provisioner := "ceph.rook.io/bucket";
     storagev1.Parameters := ∅ |}.

Definition reader (script : nat -> option error) : clientreader.Reader nat :=
  {| clientreader.ReaderGet := fun _ name n => ((storageClass name, script n), S n) |}.

Definition ctrl (script : nat -> option error) : client.Client nat :=
  {| client.ClientCreate := fun _ n => (script n, S n) |}.

Definition unavailable : error :=
  StatusError StatusReasonServiceUnavailable "the server is currently unable to handle the request".
Definition notFound : error :=
  StatusError StatusReasonNotFound "not found".

(** The scripts: every request succeeds; the first [k] requests fail
    with [e]; request number [k] alone fails with [e]. *)
Definition healthy : nat -> option error := fun _ => None.
Definition failsFirst (k : nat) (e : error) : nat -> option error :=
  fun n => if (n <? k)%nat then Some e else None.
Definition failsAt (k : nat) (e : error) : nat -> option error :=
  fun n => if (n =? k)%nat then Some e else None.

(** A world at rest: no request sent, a ticker that fires once per
    full interval that fits before the timeout, and the caller's claim
    and bucket at every address. *)
Definition world : World nat :=
  {| server := O; calls := [];
     clock := fun interval timeout => N.to_nat (Npos timeout / Npos interval);
     claims := fun _ => claim "ns1" "c1" "b1" true;
     buckets := fun _ => bucket "obc-ns1-c1" |}.

End fake.

(** * Properties *)

Import provisioner.

(** ** The poll *)

Section Poll.
Context {St L : Type}.
Implicit Types (fn : @wait.ConditionFunc St L) (w : World St).

(** An error of the condition at the first check ends the poll there. *)
Lemma PollImmediate_error fn interval timeout l w l' done e w' :
  fn l w = ((l', (done, Some e)), w') ->
  wait.PollImmediate interval timeout fn l w = ((l', Some e), w').
Proof. intros H. unfold wait.PollImmediate, bind, ret. by rewrite H. Qed.

(** So does a first check that reports it is done. *)
Lemma PollImmediate_done fn interval timeout l w l' w' :
  fn l w = ((l', (true, None)), w') ->
  wait.PollImmediate interval timeout fn l w = ((l', None), w').
Proof. intros H. unfold wait.PollImmediate, bind, ret. by rewrite H. Qed.

(** A first check that is neither done nor in error hands over to
    [WaitFor] with the ticks of the clock. *)
Lemma PollImmediate_wait fn interval timeout l w l' w' :
  fn l w = ((l', (false, None)), w') ->
  wait.PollImmediate interval timeout fn l w
  = wait.WaitFor (clock w' interval timeout) fn l' w'.
Proof. intros H. unfold wait.PollImmediate, bind, ret. by rewrite H. Qed.

Lemma WaitFor_error fn ticks l w l' done e w' :
  fn l w = ((l', (done, Some e)), w') ->
  wait.WaitFor ticks fn l w = ((l', Some e), w').
Proof. intros H. destruct ticks; simpl; unfold bind, ret; by rewrite H. Qed.


Lemma WaitFor_again fn ticks l w l' w' :
  fn l w = ((l', (false, None)), w') ->
  wait.WaitFor (S ticks) fn l w = wait.WaitFor ticks fn l' w'.
Proof. intros H. simpl. unfold bind, ret. by rewrite H. Qed.

Lemma WaitFor_timeout fn l w l' w' :
  fn l w = ((l', (false, None)), w') ->
  wait.WaitFor O fn l w = ((l', Some ErrWaitTimeout), w').
Proof. intros H. simpl. unfold bind, ret. by rewrite H. Qed.
End Poll.

(** ** Requests *)

Lemma sent_app {St} (w w' : World St) (cs : list Call) :
  calls w' = calls w ++ cs -> sent w w' = cs.
Proof. intros H. unfold sent. rewrite H. apply drop_app_length. Qed.

Lemma request_run {St R} (c : Call) (op : St -> R * St) (w : World St) :
  request c op w
  = (fst (op (server w)),
     {| server := snd (op (server w)); calls := calls w ++ [c];
        clock := clock w; claims := claims w; buckets := buckets w |}).
Proof. unfold request. by destruct (op (server w)). Qed.

(** ** The phase updaters *)

Section PhaseUpdaters.
Context {St : Type}.
Implicit Types (c : versioned.Interface St) (w : World St).

(** The whole run of the claim updater: the phase is stored at the
    caller's address, one request is sent, and what the server answers
    is the result. *)
Lemma updateObjectBucketClaimPhase_run c l phase ri rt w :
  let o := setClaimPhase phase (claims w l) in
  let answer :=
    UpdateStatus (versioned.ObjectBucketClaims c (ObjectBucketClaim.Namespace o))
                 o (server w) in
  updateObjectBucketClaimPhase c l phase ri rt w
  = ((Some (fst (fst answer)), snd (fst answer)),
     {| server := snd answer; calls := calls w ++ [claimStatusCall o];
        clock := clock w; claims := <[l := o]> (claims w);
        buckets := buckets w |}).
Proof.
  intros o answer.
  unfold updateObjectBucketClaimPhase, bind at 1 2.
  unfold loadClaim at 1, storeClaim.
  set (w1 := {| server := server w; calls := calls w; clock := clock w;
                claims := <[l := o]> (claims w); buckets := buckets w |}).
  assert (Hc : claims w1 l = o) by (simpl; apply fn_lookup_insert).
  destruct answer as [[r e] s] eqn:Ha.
  assert (Hfn : forall x : option ObjectBucketClaim.t,
    (let* o := loadClaim l in
     let* (result, err) :=
       ObjectBucketClaims_UpdateStatus c (ObjectBucketClaim.Namespace o) o in
     ret (Some result, (isNil err, err))) w1
    = ((Some r, (isNil e, e)),
       {| server := s; calls := calls w ++ [claimStatusCall o];
          clock := clock w; claims := <[l := o]> (claims w);
          buckets := buckets w |})).
  { intros _. unfold bind, loadClaim, ObjectBucketClaims_UpdateStatus,
      doUpdateStatus, ret. rewrite Hc, request_run. simpl.
    subst answer. rewrite Ha. reflexivity. }
  destruct e as [e|]; simpl in *.
  - by erewrite PollImmediate_error by apply (Hfn None).
  - by erewrite PollImmediate_done by apply (Hfn None).
Qed.

Lemma updateObjectBucketPhase_run c l phase ri rt w :
  let o := setBucketPhase phase (buckets w l) in
  let answer := UpdateStatus (versioned.ObjectBuckets c) o (server w) in
  updateObjectBucketPhase c l phase ri rt w
  = ((Some (fst (fst answer)), snd (fst answer)),
     {| server := snd answer; calls := calls w ++ [bucketStatusCall o];
        clock := clock w; claims := claims w;
        buckets := <[l := o]> (buckets w) |}).
Proof.
  intros o answer.
  unfold updateObjectBucketPhase, bind at 1 2.
  unfold loadBucket at 1, storeBucket.
  set (w1 := {| server := server w; calls := calls w; clock := clock w;
                claims := claims w; buckets := <[l := o]> (buckets w) |}).
  assert (Hc : buckets w1 l = o) by (simpl; apply fn_lookup_insert).
  destruct answer as [[r e] s] eqn:Ha.
  assert (Hfn : forall x : option ObjectBucket.t,
    (let* o := loadBucket l in
     let* (result, err) := ObjectBuckets_UpdateStatus c o in
     ret (Some result, (isNil err, err))) w1
    = ((Some r, (isNil e, e)),
       {| server := s; calls := calls w ++ [bucketStatusCall o];
          clock := clock w; claims := claims w;
          buckets := <[l := o]> (buckets w) |})).
  { intros _. unfold bind, loadBucket, ObjectBuckets_UpdateStatus,
      doUpdateStatus, ret. rewrite Hc, request_run. simpl.
    subst answer. rewrite Ha. reflexivity. }
  destruct e as [e|]; simpl in *.
  - by erewrite PollImmediate_error by apply (Hfn None).
  - by erewrite PollImmediate_done by apply (Hfn None).
Qed.
End PhaseUpdaters.

(** C7 (the code departs from the claim).  Neither phase updater retries:
    whatever the interval, the timeout and the clock, the run sends exactly
    one [UpdateStatus] request, and the error of that one request, if any,
    is the error of the call.  The closure hands every error to the poll,
    which ends on it, so a transient error is never retried and the poll
    never reaches its timeout. *)
Theorem phase_updaters_never_retry {St} (c : versioned.Interface St) (l : loc)
        (phase : Phase) (ri rt : Duration) (w : World St) :
  let oc := setClaimPhase phase (claims w l) in
  let ob := setBucketPhase phase (buckets w l) in
  let rc := updateObjectBucketClaimPhase c l phase ri rt w in
  let rb := updateObjectBucketPhase c l phase ri rt w in
  (sent w (worldOf rc) = [claimStatusCall oc]
   /\ errOf rc
      = snd (fst (UpdateStatus
                    (versioned.ObjectBucketClaims c (ObjectBucketClaim.Namespace oc))
                    oc (server w))))
  /\ (sent w (worldOf rb) = [bucketStatusCall ob]
      /\ errOf rb = snd (fst (UpdateStatus (versioned.ObjectBuckets c) ob (server w)))).
Proof.
  intros oc ob rc rb. subst rc rb.
  rewrite updateObjectBucketClaimPhase_run, updateObjectBucketPhase_run.
  unfold errOf, worldOf. simpl. split; (split; [by apply sent_app | done]).
Qed.

(** The failing run of C7: the store refuses the first request with
    "service unavailable" and would accept the second; the default clock
    leaves ten ticks, yet the updater gives up after one request. *)
Example phase_update_flaky_store :
  let r := updateObjectBucketClaimPhase
             (fake.versioned (fake.failsFirst 1 fake.unavailable)) O Bound
             defaultRetryBaseInterval defaultRetryTimeout fake.world in
  errOf r = Some fake.unavailable
  /\ length (calls (worldOf r)) = 1%nat
  /\ clock fake.world defaultRetryBaseInterval defaultRetryTimeout = 10%nat.
Proof. vm_compute. done. Qed.

(** C9.  A phase updater writes the new phase to the caller's object
    before it contacts the store, and nothing undoes the write: after the
    call, whether it returned an error or not, the object at the caller's
    address is the old one with the new phase, and that is the object every
    request of the call carried. *)
Theorem phase_assigned_before_request {St} (c : versioned.Interface St)
        (l : loc) (phase : Phase) (ri rt : Duration) (w : World St) :
  let rc := updateObjectBucketClaimPhase c l phase ri rt w in
  let rb := updateObjectBucketPhase c l phase ri rt w in
  (claims (worldOf rc) l = setClaimPhase phase (claims w l)
   /\ ObjectBucketClaimStatus.Phase (ObjectBucketClaim.Status (claims (worldOf rc) l))
      = phase
   /\ Forall (fun call => body call
                          = Some (ClaimObject (setClaimPhase phase (claims w l))))
             (sent w (worldOf rc)))
  /\ (buckets (worldOf rb) l = setBucketPhase phase (buckets w l)
      /\ ObjectBucketStatus.Phase (ObjectBucket.Status (buckets (worldOf rb) l))
         = phase
      /\ Forall (fun call => body call
                             = Some (BucketObject (setBucketPhase phase (buckets w l))))
                (sent w (worldOf rb))).
Proof.
  intros rc rb. subst rc rb.
  rewrite updateObjectBucketClaimPhase_run, updateObjectBucketPhase_run.
  unfold worldOf. simpl. rewrite !fn_lookup_insert.
  split; (split; [done | split; [done |]]);
    (erewrite sent_app by reflexivity); by repeat constructor.
Qed.

(** The error case of C9 on a store that refuses every request: the call
    fails and the caller's claim, [Pending] before, is [Bound] after. *)
Example phase_kept_after_failure :
  let r := updateObjectBucketClaimPhase
             (fake.versioned (fake.failsFirst 100 fake.unavailable)) O Bound
             defaultRetryBaseInterval defaultRetryTimeout fake.world in
  errOf r = Some fake.unavailable
  /\ ObjectBucketClaimStatus.Phase (ObjectBucketClaim.Status (claims fake.world O))
     = Pending
  /\ ObjectBucketClaimStatus.Phase
       (ObjectBucketClaim.Status (claims (worldOf r) O)) = Bound.
Proof. vm_compute. done. Qed.

(** ** Release *)

Section Release.
Context {St : Type}.
Implicit Types (kc : kubernetes.Interface St) (vc : versioned.Interface St)
         (w : World St).

Ltac run_release :=
  unfold releaseConfigMap, releaseSecret, releaseOBC, deleteObjectBucket,
    ConfigMaps_Get, ConfigMaps_Update, Secrets_Get, Secrets_Update,
    ObjectBucketClaims_Get, ObjectBucketClaims_Update,
    ObjectBuckets_Update, ObjectBuckets_Delete,
    doGet, doUpdate, doDelete, loadBucket, storeBucket, bind, ret;
  rewrite ?request_run; simpl.

(** [releaseConfigMap] reads the object first: its first request is a
    [Get], and an [Update], if one follows, writes back what the [Get]
    returned, less the finalizer. *)
Lemma releaseConfigMap_fetches_first kc cm w :
  let ns := ConfigMap.Namespace cm in
  let answer := Get (kubernetes.ConfigMaps kc ns) (ConfigMap.Name cm) (server w) in
  let got := removeFinalizerConfigMap (fst (fst answer)) in
  sent w (worldOf (releaseConfigMap (Some cm) kc w))
  = mkCall configmaps ns VGet (ConfigMap.Name cm) None
    :: match snd (fst answer) with
       | Some _ => []
       | None => [mkCall configmaps (ConfigMap.Namespace got) VUpdate
                         (ConfigMap.Name got) (Some (ConfigMapObject got))]
       end.
Proof.
  intros ns answer got. subst got. run_release. fold ns. fold answer.
  destruct answer as [[o [e|]] s]; simpl.
  - by apply sent_app.
  - rewrite request_run. simpl.
    destruct (Update _ _ _) as [[o' [e'|]] s']; simpl;
      apply sent_app; simpl; by rewrite <- app_assoc.
Qed.

Lemma releaseSecret_fetches_first kc sec w :
  let ns := Secret.Namespace sec in
  let answer := Get (kubernetes.Secrets kc ns) (Secret.Name sec) (server w) in
  let got := removeFinalizerSecret (fst (fst answer)) in
  sent w (worldOf (releaseSecret (Some sec) kc w))
  = mkCall secrets ns VGet (Secret.Name sec) None
    :: match snd (fst answer) with
       | Some _ => []
       | None => [mkCall secrets (Secret.Namespace got) VUpdate
                         (Secret.Name got) (Some (SecretObject got))]
       end.
Proof.
  intros ns answer got. subst got. run_release. fold ns. fold answer.
  destruct answer as [[o [e|]] s]; simpl.
  - by apply sent_app.
  - rewrite request_run. simpl.
    destruct (Update _ _ _) as [[o' [e'|]] s']; simpl;
      apply sent_app; simpl; by rewrite <- app_assoc.
Qed.

Lemma releaseOBC_fetches_first vc obc w :
  let ns := ObjectBucketClaim.Namespace obc in
  let answer :=
    Get (versioned.ObjectBucketClaims vc ns) (ObjectBucketClaim.Name obc)
        (server w) in
  let got := removeFinalizerClaim (fst (fst answer)) in
  sent w (worldOf (releaseOBC (Some obc) vc w))
  = mkCall objectbucketclaims ns VGet (ObjectBucketClaim.Name obc) None
    :: match snd (fst answer) with
       | Some _ => []
       | None => [mkCall objectbucketclaims (ObjectBucketClaim.Namespace got)
                         VUpdate (ObjectBucketClaim.Name got)
                         (Some (ClaimObject got))]
       end.
Proof.
  intros ns answer got. subst got. run_release. fold ns. fold answer.
  destruct answer as [[o [e|]] s]; simpl.
  - by apply sent_app.
  - rewrite request_run. simpl.
    destruct (Update _ _ _) as [[o' [e'|]] s']; simpl;
      apply sent_app; simpl; by rewrite <- app_assoc.
Qed.

(** The run of [deleteObjectBucket] on an object: the finalizer is
    removed in the caller's memory, that object is sent with [Update],
    and on success the name the server returned is deleted. *)
Lemma deleteObjectBucket_run vc l w :
  let o := removeFinalizerBucket (buckets w l) in
  let update := Update (versioned.ObjectBuckets vc) o (server w) in
  let ob' := fst (fst update) in
  let delete := Delete (versioned.ObjectBuckets vc) (ObjectBucket.Name ob')
                       (snd update) in
  let w1 := {| server := snd update;
               calls := calls w ++ [mkCall objectbuckets "" VUpdate
                                           (ObjectBucket.Name o)
                                           (Some (BucketObject o))];
               clock := clock w; claims := claims w;
               buckets := <[l := o]> (buckets w) |} in
  deleteObjectBucket (Some l) vc w
  = match snd (fst update) with
    | Some e => (Some e, w1)
    | None =>
        (match fst delete with
         | Some e =>
             if errors.IsNotFound (Some e) then None
             else Some (Wrapf "error deleting ObjectBucket %q: %v"
                              [ObjectBucket.Name ob'] e)
         | None => None
         end,
         {| server := snd delete;
            calls := calls w1 ++ [mkCall objectbuckets "" VDelete
                                         (ObjectBucket.Name ob') None];
            clock := clock w; claims := claims w;
            buckets := <[l := o]> (buckets w) |})
    end.
Proof.
  intros o update ob' delete w1. subst w1 delete ob'. run_release.
  rewrite fn_lookup_insert. fold o. fold update.
  destruct update as [[r [e|]] s]; simpl; [done |].
  rewrite request_run. simpl.
  destruct (Delete _ _ _) as [[e|] s']; simpl; [|done].
  by destruct (errors.IsNotFound (Some e)).
Qed.
End Release.

(** C5 (the code departs from the claim).  The Bucket path does not fetch:
    the first request of [deleteObjectBucket] is an [Update] that writes
    back the caller's own in-memory object, less the finalizer, and no
    request of the run is a [Get].  The three other release functions do
    fetch first ([releaseConfigMap_fetches_first],
    [releaseSecret_fetches_first], [releaseOBC_fetches_first]). *)
Theorem deleteObjectBucket_writes_back_unfetched {St}
        (vc : versioned.Interface St) (l : loc) (w : World St) :
  let o := removeFinalizerBucket (buckets w l) in
  let requests := sent w (worldOf (deleteObjectBucket (Some l) vc w)) in
  (exists rest,
      requests = mkCall objectbuckets "" VUpdate (ObjectBucket.Name o)
                        (Some (BucketObject o)) :: rest)
  /\ Forall (fun call => verb call <> VGet) requests.
Proof.
  intros o requests. subst requests. rewrite deleteObjectBucket_run. fold o.
  destruct (snd (fst (Update _ _ _))); unfold worldOf; simpl.
  - erewrite sent_app by reflexivity. split; [by eexists |].
    by repeat constructor.
  - erewrite sent_app by (simpl; by rewrite <- app_assoc).
    split; [by eexists |]. by repeat constructor.
Qed.

(** The run behind C5 on a healthy store: two requests, [Update] and
    [Delete], and the object updated is the caller's. *)
Example deleteObjectBucket_healthy_store :
  map verb (calls (worldOf (deleteObjectBucket (Some O)
                              (fake.versioned fake.healthy) fake.world)))
  = [VUpdate; VDelete].
Proof. vm_compute. done. Qed.



(** ** Create *)

Section Create.
Context {St : Type}.
Implicit Types (kc : kubernetes.Interface St) (vc : versioned.Interface St)
         (w : World St).

(** The whole run of [createObjectBucket]: one [Create]; the error of the
    call is the error of that request, unless it is "already exists". *)
Lemma createObjectBucket_run vc ob ri rt w :
  let answer := Create (versioned.ObjectBuckets vc) ob (server w) in
  let err := snd (fst answer) in
  createObjectBucket ob vc ri rt w
  = ((Some (fst (fst answer)), if errors.IsAlreadyExists err then None else err),
     after w (snd answer)
           (mkCall objectbuckets "" VCreate (ObjectBucket.Name ob)
                   (Some (BucketObject ob)))).
Proof.
  intros answer err. unfold createObjectBucket.
  set (fn := fun _ : option ObjectBucket.t => _).
  assert (Hfn : fn None w
    = ((Some (fst (fst answer)),
        (isNil (if errors.IsAlreadyExists err then None else err),
         if errors.IsAlreadyExists err then None else err)),
       after w (snd answer)
             (mkCall objectbuckets "" VCreate (ObjectBucket.Name ob)
                     (Some (BucketObject ob))))).
  { subst fn err answer. unfold bind, ObjectBuckets_Create, doCreate, ret.
    rewrite request_run. by destruct (Create _ _ _) as [[r e] s]. }
  destruct (if errors.IsAlreadyExists err then None else err) as [e|] eqn:He.
  - by erewrite PollImmediate_error by exact Hfn.
  - by erewrite PollImmediate_done by exact Hfn.
Qed.

(** The whole run of [CreateUntilDefaultTimeout] with a client: one
    [Create], whatever its name promises. *)
Lemma CreateUntilDefaultTimeout_run (c : client.Client St) obj w :
  let answer := client.ClientCreate c obj (server w) in
  let err := fst answer in
  util.CreateUntilDefaultTimeout obj (Some c) w
  = (if errors.IsAlreadyExists err then None else err,
     after w (snd answer)
           {| verb := VCreate; resource := anyresource; callNamespace := "";
              callName := objectName obj; body := Some obj |}).
Proof.
  intros answer err. unfold util.CreateUntilDefaultTimeout.
  unfold bind at 1.
  set (fn := fun _ : unit => _).
  set (w1 := after w (snd answer) _).
  assert (Hfn : exists done,
    fn tt w = ((tt, (done, if errors.IsAlreadyExists err then None else err)), w1)
    /\ (done = false -> errors.IsAlreadyExists err = false /\ err <> None)).
  { subst fn. unfold bind, Client_Create, ret. rewrite request_run.
    fold answer. fold err. fold w1. destruct err as [e|]; simpl.
    - destruct (errors.IsAlreadyExists (Some e)) eqn:Hx; simpl.
      + eexists; split; [reflexivity | done].
      + eexists; split; [reflexivity | done].
    - eexists; split; [reflexivity | done]. }
  destruct Hfn as (done & Hfn & Hdone).
  destruct (if errors.IsAlreadyExists err then None else err) as [e|] eqn:He.
  - by erewrite PollImmediate_error by exact Hfn.
  - destruct done.
    + by erewrite PollImmediate_done by exact Hfn.
    + destruct (Hdone eq_refl) as [Hx Hne]. rewrite Hx in He. done.
Qed.

(** Such a condition is run at every tick and once more at the
    timeout, and the wait ends with [ErrWaitTimeout]. *)
Lemma WaitFor_retrying {L : Type} (fn : @wait.ConditionFunc St L) :
  retrying fn ->
  forall ticks l w, exists l' w',
    wait.WaitFor ticks fn l w = ((l', Some ErrWaitTimeout), w')
    /\ length (calls w') = (length (calls w) + S ticks)%nat.
Proof.
  intros Hfn. induction ticks as [|n IH]; intros l w.
  - destruct (Hfn l w) as (l' & w' & H & Hlen & _).
    exists l', w'. split; [by apply WaitFor_timeout | lia].
  - destruct (Hfn l w) as (l1 & w1 & H & Hlen & _).
    destruct (IH l1 w1) as (l' & w' & H' & Hlen').
    exists l', w'. split; [by erewrite WaitFor_again by exact H | lia].
Qed.

Lemma PollImmediate_retrying {L : Type} (fn : @wait.ConditionFunc St L)
      interval timeout :
  retrying fn ->
  forall l w, exists l' w',
    wait.PollImmediate interval timeout fn l w = ((l', Some ErrWaitTimeout), w')
    /\ length (calls w')
       = (length (calls w) + S (S (clock w interval timeout)))%nat.
Proof.
  intros Hfn l w. destruct (Hfn l w) as (l1 & w1 & H & Hlen & Hclock).
  destruct (WaitFor_retrying fn Hfn (clock w1 interval timeout) l1 w1)
    as (l' & w' & H' & Hlen').
  exists l', w'. split; [by erewrite PollImmediate_wait by exact H |].
  rewrite Hclock in Hlen'. lia.
Qed.

(** [createSecret] does retry: against a store whose every [Create]
    fails with a transient error it sends a request at once, one at each
    tick and one at the timeout, and then returns [ErrWaitTimeout]. *)
Lemma createSecret_retries_until_timeout kc obc auth ri rt w :
  alwaysTransient (kubernetes.Secrets kc (ObjectBucketClaim.Namespace obc)) ->
  let r := createSecret (Some obc) (Some auth) kc ri rt w in
  errOf r = Some ErrWaitTimeout
  /\ length (sent w (worldOf r)) = S (S (clock w ri rt)).
Proof.
  intros Hs. unfold createSecret. simpl.
  set (fn := fun _ : Secret.t => _).
  assert (Hfn : retrying fn).
  { intros l w0. subst fn. unfold bind, Secrets_Create, doCreate.
    rewrite request_run.
    destruct (Hs l (server w0)) as (e & He & Hx).
    destruct (Create _ _ _) as [[o e'] s]. simpl in He. subst e'.
    simpl. rewrite Hx. eexists _, _. split; [reflexivity |].
    simpl. rewrite length_app. simpl. split; [lia | done]. }
  destruct (PollImmediate_retrying fn ri rt Hfn
              (Secret.Build_t
                 {| metav1.Name := ObjectBucketClaim.Name obc;
                    metav1.Namespace := ObjectBucketClaim.Namespace obc;
                    metav1.Finalizers := [finalizer];
                    metav1.OwnerReferences := [makeOwnerReference obc] |}
                 (Authentication.ToMap auth)) w)
    as (l' & w' & H & Hlen).
  unfold errOf, worldOf, sent, bind, ret. rewrite H. simpl.
  split; [done |]. rewrite length_drop. lia.
Qed.

Lemma createConfigMap_retries_until_timeout kc obc ep ri rt w :
  alwaysTransient (kubernetes.ConfigMaps kc (ObjectBucketClaim.Namespace obc)) ->
  let r := createConfigMap (Some obc) (Some ep) kc ri rt w in
  errOf r = Some ErrWaitTimeout
  /\ length (sent w (worldOf r)) = S (S (clock w ri rt)).
Proof.
  intros Hs. unfold createConfigMap. simpl.
  set (fn := fun _ : ConfigMap.t => _).
  assert (Hfn : retrying fn).
  { intros l w0. subst fn. unfold bind, ConfigMaps_Create, doCreate.
    rewrite request_run.
    destruct (Hs l (server w0)) as (e & He & Hx).
    destruct (Create _ _ _) as [[o e'] s]. simpl in He. subst e'.
    simpl. rewrite Hx. eexists _, _. split; [reflexivity |].
    simpl. rewrite length_app. simpl. split; [lia | done]. }
  match goal with
  | |- context [wait.PollImmediate ri rt fn ?cm] =>
      destruct (PollImmediate_retrying fn ri rt Hfn cm w) as (l' & w' & H & Hlen)
  end.
  unfold errOf, worldOf, sent, bind, ret. rewrite H. simpl.
  split; [done |]. rewrite length_drop. lia.
Qed.
End Create.

(** C1 (the code departs from the claim).  The create of a Bucket record
    is never re-attempted: whatever the interval, the timeout and the clock,
    [createObjectBucket] sends exactly one [Create], and unless the store
    answered "already exists" the error of that request is returned as it
    is, at once.  [CreateUntilDefaultTimeout] does the same.  The Secret and
    ConfigMap paths do retry until the timeout
    ([createSecret_retries_until_timeout],
    [createConfigMap_retries_until_timeout]). *)
Theorem create_bucket_never_retries {St} (vc : versioned.Interface St)
        (c : client.Client St) (ob : ObjectBucket.t) (obj : Object)
        (ri rt : Duration) (w : World St) :
  let rb := createObjectBucket ob vc ri rt w in
  let eb := snd (fst (Create (versioned.ObjectBuckets vc) ob (server w))) in
  let ru := util.CreateUntilDefaultTimeout obj (Some c) w in
  let eu := fst (client.ClientCreate c obj (server w)) in
  (length (sent w (worldOf rb)) = 1%nat
   /\ errOf rb = if errors.IsAlreadyExists eb then None else eb)
  /\ (length (sent w (worldOf ru)) = 1%nat
      /\ fst ru = if errors.IsAlreadyExists eu then None else eu).
Proof.
  intros rb eb ru eu. subst rb ru.
  rewrite createObjectBucket_run, CreateUntilDefaultTimeout_run.
  unfold errOf, worldOf. simpl.
  split; (split; [by erewrite sent_app by reflexivity | done]).
Qed.

(** The failing run of C1: the store refuses the first request with
    "service unavailable" and accepts every later one.  The Bucket create
    returns that error after one request; the Secret create, against the
    same store and with the same budget, succeeds with its second
    request. *)
Example create_flaky_store :
  let flaky := fake.failsFirst 1 fake.unavailable in
  let rb := createObjectBucket (fake.bucket "obc-ns1-c1") (fake.versioned flaky)
              defaultRetryBaseInterval defaultRetryTimeout fake.world in
  let rs := createSecret (Some (fake.claim "ns1" "c1" "b1" true)) (Some fake.auth)
              (fake.kube flaky) defaultRetryBaseInterval defaultRetryTimeout
              fake.world in
  (errOf rb = Some fake.unavailable /\ length (calls (worldOf rb)) = 1%nat)
  /\ (errOf rs = None /\ length (calls (worldOf rs)) = 2%nat).
Proof. vm_compute. done. Qed.




(** ** Synthesis *)

(** C4 (as amended).  Every ConfigMap that [newBucketConfigMap] produces
    and every Secret that [newCredentialsSecret] produces carries exactly
    one finalizer token, [finalizer], and exactly one owner reference, the
    one that [makeOwnerReference] makes for the claim it was built from.  The builders of package [util] differ: the
    Secret of [NewCredentialsSecret] carries the one finalizer token and no
    owner reference, and the ConfigMap of [NewBucketConfigMap] carries
    neither. *)
Theorem synthesized_finalizer_and_owner
        (ep1 : option Endpoint.t) (obc1 : option ObjectBucketClaim.t)
        (cm : ConfigMap.t)
        (obc2 : option ObjectBucketClaim.t) (auth2 : option Authentication.t)
        (secret : Secret.t)
        (ep3 : option Endpoint.t) (obc3 : option ObjectBucketClaim.t)
        (ucm : ConfigMap.t)
        (obc4 : option ObjectBucketClaim.t) (auth4 : option Authentication.t)
        (usecret : Secret.t) :
  newBucketConfigMap ep1 obc1 = (Some cm, None) ->
  newCredentialsSecret obc2 auth2 = (Some secret, None) ->
  util.NewBucketConfigMap ep3 obc3 = (Some ucm, None) ->
  util.NewCredentialsSecret obc4 auth4 = (Some usecret, None) ->
  (exists o, obc1 = Some o
     /\ metav1.Finalizers (ConfigMap.ObjectMeta cm) = [finalizer]
     /\ metav1.OwnerReferences (ConfigMap.ObjectMeta cm) = [makeOwnerReference o])
  /\ (exists o, obc2 = Some o
        /\ metav1.Finalizers (Secret.ObjectMeta secret) = [finalizer]
        /\ metav1.OwnerReferences (Secret.ObjectMeta secret)
           = [makeOwnerReference o])
  /\ (metav1.Finalizers (ConfigMap.ObjectMeta ucm) = []
      /\ metav1.OwnerReferences (ConfigMap.ObjectMeta ucm) = [])
  /\ (metav1.Finalizers (Secret.ObjectMeta usecret) = [util.Finalizer]
      /\ metav1.OwnerReferences (Secret.ObjectMeta usecret) = []).
Proof.
  intros H1 H2 H3 H4. repeat apply conj.
  - destruct ep1 as [ep|], obc1 as [o|]; simpl in H1; try discriminate.
    exists o. by injection H1 as <-.
  - destruct obc2 as [o|], auth2 as [a|]; simpl in H2; try discriminate.
    exists o. by injection H2 as <-.
  - destruct ep3 as [ep|], obc3 as [o|]; simpl in H3; try discriminate.
    destruct (url.Parse _); [discriminate |]. by injection H3 as <-.
  - destruct ep3 as [ep|], obc3 as [o|]; simpl in H3; try discriminate.
    destruct (url.Parse _); [discriminate |]. by injection H3 as <-.
  - destruct obc4 as [o|], auth4 as [a|]; simpl in H4; try discriminate.
    by injection H4 as <-.
  - destruct obc4 as [o|], auth4 as [a|]; simpl in H4; try discriminate.
    by injection H4 as <-.
Qed.

(** C4 on the claim [ns1/c1] and the endpoint of the design document. *)
Lemma synthesized_finalizer_and_owner_witness :
  let obc := fake.claim "ns1" "c1" "b1" true in
  let ep := fake.endpoint "s3.example.com" 0 "us" "east" "b1" true in
  exists cm secret ucm usecret,
    fst (newBucketConfigMap (Some ep) (Some obc)) = Some cm
    /\ fst (newCredentialsSecret (Some obc) (Some fake.auth)) = Some secret
    /\ fst (util.NewBucketConfigMap (Some ep) (Some obc)) = Some ucm
    /\ fst (util.NewCredentialsSecret (Some obc) (Some fake.auth)) = Some usecret
    /\ length (metav1.Finalizers (ConfigMap.ObjectMeta cm)) = 1%nat
    /\ length (metav1.OwnerReferences (Secret.ObjectMeta secret)) = 1%nat
    /\ length (metav1.Finalizers (ConfigMap.ObjectMeta ucm)) = 0%nat
    /\ length (metav1.OwnerReferences (Secret.ObjectMeta usecret)) = 0%nat.
Proof.
  intros obc ep.
  destruct (newBucketConfigMap (Some ep) (Some obc)) as [[cm|] [e1|]] eqn:H1;
    try discriminate.
  destruct (newCredentialsSecret (Some obc) (Some fake.auth))
    as [[secret|] [e2|]] eqn:H2; try discriminate.
  destruct (util.NewBucketConfigMap (Some ep) (Some obc)) as [[ucm|] [e3|]] eqn:H3;
    try (vm_compute in H3; discriminate).
  destruct (util.NewCredentialsSecret (Some obc) (Some fake.auth))
    as [[usecret|] [e4|]] eqn:H4; try discriminate.
  destruct (synthesized_finalizer_and_owner _ _ _ _ _ _ _ _ _ _ _ _ H1 H2 H3 H4)
    as ((o1 & _ & Hf1 & _) & (o2 & _ & _ & Ho2) & (Hf3 & _) & (_ & Ho4)).
  exists cm, secret, ucm, usecret. simpl.
  rewrite Hf1, Ho2, Hf3, Ho4. repeat split.
Defined.

(** The claim C4 as it was stated fails on [util.NewBucketConfigMap]: the
    ConfigMap it builds for the claim and endpoint of the design document
    has no finalizer token and no owner reference. *)
Lemma util_config_map_has_no_finalizer :
  ~ (forall cm,
        util.NewBucketConfigMap
          (Some (fake.endpoint "s3.example.com" 0 "us" "east" "b1" true))
          (Some (fake.claim "ns1" "c1" "b1" true)) = (Some cm, None) ->
        length (metav1.Finalizers (ConfigMap.ObjectMeta cm)) = 1%nat
        /\ length (metav1.OwnerReferences (ConfigMap.ObjectMeta cm)) = 1%nat).
Proof.
  intros H.
  destruct (util.NewBucketConfigMap _ _) as [[cm|] [e|]] eqn:Hcm;
    try (vm_compute in Hcm; discriminate).
  destruct (H cm eq_refl) as [Hf _].
  vm_compute in Hcm. injection Hcm as <-. discriminate.
Qed.

(** ** Reclaim policy *)




(** A string equal up to letter case to an ASCII string is ASCII, so the
    ASCII inputs leave out no input that equals "Delete" or "Retain" up to
    letter case. *)
Lemma EqualFold_isASCII (s t : string) :
  EqualFold s t = true -> strings.isASCII t = true -> strings.isASCII s = true.
Proof.
  revert t. induction s as [|a s IH]; intros [|b t]; simpl; try done.
  intros [Hab Hst]%andb_prop [Hb Ht]%andb_prop.
  rewrite (IH t) by done. rewrite andb_true_r.
  unfold eqFoldByte in Hab. unfold strings.isASCIIByte in *.
  apply Nat.ltb_lt in Hb. apply Nat.ltb_lt.
  apply orb_prop in Hab as [Hab | Hab].
  - apply Nat.eqb_eq in Hab. lia.
  - apply andb_prop in Hab as [[H1 H2]%andb_prop H3].
    apply Nat.leb_le in H1, H2. apply Nat.eqb_eq in H3. lia.
Qed.



(** ** Strings *)

#[local] Arguments String.append !s1 s2 : simpl nomatch.

Lemma append_assoc (a b c : string) : (a +:+ b) +:+ c = a +:+ (b +:+ c).
Proof. induction a as [|x a IH]; simpl; [done | by rewrite IH]. Qed.

Lemma append_nil_r (a : string) : a +:+ "" = a.
Proof. induction a as [|x a IH]; simpl; [done | by rewrite IH]. Qed.

Lemma allBytes_app (p : ascii -> bool) (a b : string) :
  allBytes p (a +:+ b) = allBytes p a && allBytes p b.
Proof.
  induction a as [|x a IH]; simpl; [done |]. by rewrite IH, andb_assoc.
Qed.

Lemma allBytes_impl (p q : ascii -> bool) (s : string) :
  (forall c, p c = true -> q c = true) ->
  allBytes p s = true -> allBytes q s = true.
Proof.
  intros Hpq. induction s as [|x s IH]; simpl; [done |].
  intros [Hx Hs]%andb_prop. by rewrite (Hpq x Hx), IH.
Qed.

(** A byte outside the class of a string does not occur in it. *)
Section Absent.
Variable p : ascii -> bool.
Variable c : ascii.
Hypothesis Hc : p c = false.

Lemma absent_head (x : ascii) : p x = true -> bool_decide (x = c) = false.
Proof. intros Hx. apply bool_decide_eq_false_2. congruence. Qed.

Lemma IndexByte_absent (s : string) :
  allBytes p s = true -> strings.IndexByte s c = None.
Proof.
  induction s as [|x s IH]; simpl; [done |].
  intros [Hx Hs]%andb_prop. by rewrite (absent_head x Hx), IH.
Qed.

Lemma LastIndexByte_absent (s : string) :
  allBytes p s = true -> strings.LastIndexByte s c = None.
Proof.
  induction s as [|x s IH]; simpl; [done |].
  intros [Hx Hs]%andb_prop. by rewrite (absent_head x Hx), IH.
Qed.

Lemma CountByte_absent (s : string) :
  allBytes p s = true -> strings.CountByte s c = O.
Proof.
  induction s as [|x s IH]; simpl; [done |].
  intros [Hx Hs]%andb_prop. by rewrite (absent_head x Hx), IH.
Qed.

Lemma HasSuffix_absent (s : string) :
  allBytes p s = true -> strings.HasSuffix s (String c "") = false.
Proof.
  induction s as [|x s IH]; simpl; [done |].
  intros [Hx Hs]%andb_prop. rewrite IH by done.
  rewrite orb_false_r. apply bool_decide_eq_false_2.
  intros [= -> _]. congruence.
Qed.

Lemma HasPrefix_absent (s t : string) :
  allBytes p s = true -> strings.HasPrefix s (String c t) = false.
Proof.
  destruct s as [|x s]; simpl; [done |].
  intros [Hx Hs]%andb_prop. by rewrite (absent_head x Hx).
Qed.

(** The first [c] of [a ++ c :: b] is where [a] ends. *)
Lemma IndexByte_app (a b : string) :
  allBytes p a = true ->
  strings.IndexByte (a +:+ String c b) c = Some (String.length a).
Proof.
  induction a as [|x a IH]; simpl.
  - by rewrite bool_decide_eq_true_2.
  - intros [Hx Ha]%andb_prop. by rewrite (absent_head x Hx), IH.
Qed.

(** So is the last one, when [b] has none. *)
Lemma LastIndexByte_app (a b : string) :
  strings.LastIndexByte b c = None ->
  strings.LastIndexByte (a +:+ String c b) c = Some (String.length a).
Proof.
  intros Hb. induction a as [|x a IH]; simpl.
  - by rewrite Hb, bool_decide_eq_true_2.
  - by rewrite IH.
Qed.
End Absent.

Lemma sliceTo_app (a b : string) : strings.sliceTo (String.length a) (a +:+ b) = a.
Proof. induction a as [|x a IH]; simpl; [by destruct b | by rewrite IH]. Qed.

Lemma sliceFrom_app (a b : string) :
  strings.sliceFrom (String.length a) (a +:+ b) = b.
Proof. induction a as [|x a IH]; simpl; [by destruct b | done]. Qed.

(** ** Bytes *)

(** A statement about every byte, checked on the 256 of them. *)
Ltac by_bytes :=
  let c := fresh "c" in
  intros c; destruct c as [[] [] [] [] [] [] [] []]; vm_compute;
  repeat split; congruence.

Lemma plainByte_auth : forall c, plainByte c = true -> authByte c = true.
Proof. by_bytes. Qed.

Lemma plainByte_path : forall c, plainByte c = true -> pathByte c = true.
Proof. by_bytes. Qed.

Lemma authByte_url : forall c, authByte c = true -> urlByte c = true.
Proof. by_bytes. Qed.

Lemma pathByte_url : forall c, pathByte c = true -> urlByte c = true.
Proof. by_bytes. Qed.

Lemma digit_plain : forall c, url.isDigit c = true -> plainByte c = true.
Proof. by_bytes. Qed.

Lemma urlByte_not_control :
  forall c, urlByte c = true ->
            (url.byte c <? 32)%nat || (url.byte c =? 127)%nat = false.
Proof. by_bytes. Qed.

Lemma authByte_host :
  forall c, authByte c = true ->
            bool_decide (c = "%"%char) = false
            /\ bool_decide (c = "+"%char) = false
            /\ url.shouldEscape c url.encodeHost = false.
Proof. by_bytes. Qed.

Lemma pathByte_path :
  forall c, pathByte c = true ->
            bool_decide (c = "%"%char) = false
            /\ bool_decide (c = "+"%char) = false
            /\ url.shouldEscape c url.encodePath = false.
Proof. by_bytes. Qed.

(** ** [net/url] on quiet strings *)

Lemma stringContainsCTLByte_url (s : string) :
  allBytes urlByte s = true -> url.stringContainsCTLByte s = false.
Proof.
  induction s as [|x s IH]; simpl; [done |].
  intros [Hx Hs]%andb_prop. by rewrite (urlByte_not_control x Hx), IH.
Qed.

(** A string without [%] and [+] whose bytes the mode leaves alone passes
    [unescape] and [escape] unchanged. *)
Section Quiet.
Variable p : ascii -> bool.
Variable mode : url.encoding.
Hypothesis Hp :
  forall c, p c = true ->
            bool_decide (c = "%"%char) = false
            /\ bool_decide (c = "+"%char) = false
            /\ url.shouldEscape c mode = false.
Hypothesis Hmode : mode = url.encodeHost \/ mode = url.encodePath.

Lemma unescapeCheck_quiet (s : string) (n : nat) (hasPlus : bool) :
  allBytes p s = true -> url.unescapeCheck s mode n hasPlus = inr (n, hasPlus).
Proof.
  revert n hasPlus. induction s as [|x s IH]; intros n hasPlus; [done |].
  simpl. intros [Hx Hs]%andb_prop.
  destruct (Hp x Hx) as (-> & -> & Hesc).
  destruct Hmode as [-> | ->].
  - rewrite Hesc, andb_false_r. by apply IH.
  - simpl. by apply IH.
Qed.

Lemma unescape_quiet (s : string) :
  allBytes p s = true -> url.unescape s mode = inr s.
Proof. intros Hs. unfold url.unescape. by rewrite unescapeCheck_quiet. Qed.

Lemma needsEscape_quiet (s : string) :
  allBytes p s = true -> url.needsEscape s mode = false.
Proof.
  induction s as [|x s IH]; simpl; [done |].
  intros [Hx Hs]%andb_prop. destruct (Hp x Hx) as (_ & _ & ->). by apply IH.
Qed.

Lemma escape_quiet (s : string) :
  allBytes p s = true -> url.escape s mode = s.
Proof. intros Hs. unfold url.escape. by rewrite needsEscape_quiet. Qed.
End Quiet.

Lemma getscheme_http (rest : string) :
  url.getscheme ("http://" +:+ rest) = inr ("http", "//" +:+ rest).
Proof. reflexivity. Qed.

Lemma getscheme_https (rest : string) :
  url.getscheme ("https://" +:+ rest) = inr ("https", "//" +:+ rest).
Proof. reflexivity. Qed.

(** [strconv.Itoa] of a positive number is a string of digits. *)
Lemma string_of_uint_digits (d : Decimal.uint) :
  url.allDigits (NilEmpty.string_of_uint d) = true.
Proof. induction d; simpl; done. Qed.

Lemma Itoa_digits (i : Z) : 0 < i -> url.allDigits (strconv.Itoa i) = true.
Proof.
  intros Hi. destruct i as [|p|p]; try lia.
  unfold strconv.Itoa, NilZero.string_of_int, NilZero.string_of_uint. simpl.
  destruct (Pos.to_uint p) eqn:Hp; try apply string_of_uint_digits. done.
Qed.

Lemma allDigits_plain (s : string) :
  url.allDigits s = true -> plain s = true.
Proof.
  unfold plain. induction s as [|x s IH]; simpl; [done |].
  intros [Hx Hs]%andb_prop. by rewrite (digit_plain x Hx), IH.
Qed.

(** A plain host, with or without a port of digits, is a host that
    [parseHost] returns as it is. *)
Lemma parseHost_plain (host : string) :
  plain host = true -> url.parseHost host = inr host.
Proof.
  intros Hh. unfold url.parseHost.
  rewrite (HasPrefix_absent plainByte "[" eq_refl) by done.
  rewrite (LastIndexByte_absent plainByte ":" eq_refl) by done.
  rewrite (unescape_quiet authByte url.encodeHost authByte_host (or_introl eq_refl));
    [done |].
  by apply (allBytes_impl plainByte), Hh; apply plainByte_auth.
Qed.

Lemma authority_bytes (host port : string) :
  plain host = true -> url.allDigits port = true ->
  allBytes authByte (host +:+ ":" +:+ port) = true.
Proof.
  intros Hh Hp. rewrite allBytes_app. apply andb_true_intro. split.
  - by apply (allBytes_impl plainByte), Hh; apply plainByte_auth.
  - simpl. apply (allBytes_impl plainByte); [apply plainByte_auth |].
    by apply allDigits_plain.
Qed.

Lemma parseHost_plain_port (host port : string) :
  plain host = true -> url.allDigits port = true ->
  url.parseHost (host +:+ ":" +:+ port) = inr (host +:+ ":" +:+ port).
Proof.
  intros Hh Hp. unfold url.parseHost.
  rewrite (HasPrefix_absent authByte "[" eq_refl) by by apply authority_bytes.
  change (host +:+ ":" +:+ port) with (host +:+ String ":" port).
  rewrite (LastIndexByte_app ":")
    by by apply (LastIndexByte_absent plainByte ":" eq_refl), allDigits_plain.
  rewrite sliceFrom_app. simpl. rewrite Hp. simpl.
  rewrite (unescape_quiet authByte url.encodeHost authByte_host (or_introl eq_refl));
    [done |].
  by apply authority_bytes.
Qed.

Section PlainURL.
Variables scheme authority p : string.
Hypothesis Hscheme : scheme = "http" \/ scheme = "https".
Hypothesis Hauthority : allBytes authByte authority = true.
Hypothesis Hhost : url.parseHost authority = inr authority.
Hypothesis Hpath : allBytes pathByte p = true.

Let rest : string := "//" +:+ authority +:+ "/" +:+ p.

Lemma rest_bytes : allBytes urlByte rest = true.
Proof.
  unfold rest. rewrite !allBytes_app.
  rewrite (allBytes_impl authByte urlByte authority authByte_url Hauthority).
  by rewrite (allBytes_impl pathByte urlByte p pathByte_url Hpath).
Qed.

Lemma raw_bytes : allBytes urlByte (scheme +:+ ":" +:+ rest) = true.
Proof.
  rewrite !allBytes_app, rest_bytes. by destruct Hscheme as [-> | ->].
Qed.

Lemma getscheme_plain :
  url.getscheme (scheme +:+ ":" +:+ rest) = inr (scheme, rest).
Proof. by destruct Hscheme as [-> | ->]. Qed.

Lemma parseAuthority_plain : url.parseAuthority authority = inr (None, authority).
Proof.
  unfold url.parseAuthority.
  rewrite (LastIndexByte_absent authByte "@" eq_refl) by done.
  by rewrite Hhost.
Qed.

Lemma setPath_plain : url.setPath ("/" +:+ p) = inr ("/" +:+ p, "").
Proof.
  assert (Hp : allBytes pathByte ("/" +:+ p) = true) by done.
  unfold url.setPath.
  rewrite (unescape_quiet pathByte url.encodePath pathByte_path
             (or_intror eq_refl)) by done.
  rewrite (escape_quiet pathByte url.encodePath pathByte_path) by done.
  by rewrite bool_decide_eq_true_2.
Qed.

Lemma parse_plain :
  url.parse (scheme +:+ ":" +:+ rest) = inr (plainURL scheme authority p).
Proof.
  unfold url.parse.
  rewrite (stringContainsCTLByte_url _ raw_bytes).
  rewrite bool_decide_eq_false_2 by by destruct Hscheme as [-> | ->].
  rewrite getscheme_plain.
  assert (Hlower : strings.ToLower scheme = scheme)
    by by destruct Hscheme as [-> | ->].
  rewrite Hlower.
  rewrite (HasSuffix_absent urlByte "?" eq_refl _ rest_bytes).
  cbn [andb]. unfold url.split at 1.
  rewrite (IndexByte_absent urlByte "?" eq_refl _ rest_bytes).
  cbv beta iota zeta.
  assert (Hne : bool_decide (scheme = "") = false)
    by by destruct Hscheme as [-> | ->].
  assert (H1 : strings.HasPrefix rest "/" = true) by reflexivity.
  assert (H2 : strings.HasPrefix rest "//" = true) by reflexivity.
  assert (H3 : strings.sliceFrom 2 rest = authority +:+ String "/" p)
    by reflexivity.
  unfold url.split. rewrite Hne, H1, H2, H3. cbn [negb orb andb].
  rewrite (IndexByte_app authByte "/" eq_refl) by done.
  rewrite sliceTo_app, sliceFrom_app.
  rewrite parseAuthority_plain.
  change (String "/" p) with ("/" +:+ p).
  by rewrite setPath_plain.
Qed.

Lemma Parse_plain :
  url.Parse (scheme +:+ ":" +:+ rest) = inr (plainURL scheme authority p).
Proof.
  unfold url.Parse, url.split.
  rewrite (IndexByte_absent urlByte "#" eq_refl _ raw_bytes).
  by rewrite parse_plain.
Qed.

Lemma String_plain :
  url.String (plainURL scheme authority p) = scheme +:+ ":" +:+ rest.
Proof.
  assert (Hp : allBytes pathByte ("/" +:+ p) = true) by done.
  unfold url.String, url.EscapedPath.
  cbn [plainURL url.Scheme url.Opaque url.User url.Host url.Path url.RawPath
       url.ForceQuery url.RawQuery url.Fragment].
  rewrite (escape_quiet pathByte url.encodePath pathByte_path) by done.
  rewrite (escape_quiet authByte url.encodeHost authByte_host) by done.
  unfold rest. clear -Hscheme.
  destruct Hscheme as [-> | ->]; destruct authority; reflexivity.
Qed.
End PlainURL.

(** ** [path.Join] on plain segments *)

Lemma string_of_list_ascii_app (a b : list ascii) :
  string_of_list_ascii (a ++ b) = string_of_list_ascii a +:+ string_of_list_ascii b.
Proof. induction a as [|x a IH]; simpl; [done | by rewrite IH]. Qed.

Lemma plainByte_not_slash (c : ascii) :
  plainByte c = true -> bool_decide (c = "/"%char) = false.
Proof. revert c. by_bytes. Qed.

(** Inside an element the loop copies up to the next slash. *)
Lemma scan_copy (rooted : bool) (elem rest : string) (out : list ascii) (dd : nat) :
  plain elem = true ->
  path.scan rooted true (elem +:+ rest) out dd
  = path.scan rooted true rest (rev (list_ascii_of_string elem) ++ out) dd.
Proof.
  unfold plain. revert out. induction elem as [|x elem IH]; intros out; [done |].
  simpl. intros [Hx He]%andb_prop.
  rewrite (plainByte_not_slash x Hx), IH by done. by rewrite <- app_assoc.
Qed.

(** At the start of a plain segment the loop takes its last case. *)
Lemma scan_segment (seg rest : string) (out : list ascii) (dd : nat) :
  plainSegment seg = true ->
  path.scan false false (seg +:+ rest) out dd
  = path.scan false true rest
              (rev (list_ascii_of_string seg) ++ separated out) dd.
Proof.
  unfold plainSegment. intros [[[Hp Hne]%andb_prop Hdot]%andb_prop Hdd]%andb_prop.
  apply negb_true_iff, bool_decide_eq_false in Hne, Hdot, Hdd.
  destruct seg as [|c seg]; [done |].
  unfold plain in Hp. simpl in Hp. apply andb_prop in Hp as [Hc Hseg].
  simpl path.scan at 1. rewrite (plainByte_not_slash c Hc).
  destruct (bool_decide (c = "."%char)) eqn:Hcdot.
  2: { rewrite scan_copy by done. simpl. rewrite <- app_assoc. simpl.
       by destruct out. }
  apply bool_decide_eq_true in Hcdot. subst c.
  destruct seg as [|c1 seg]; [done |]. simpl in Hseg.
  apply andb_prop in Hseg as [Hc1 Hseg]. simpl.
  rewrite (plainByte_not_slash c1 Hc1).
  destruct (bool_decide (c1 = "."%char)) eqn:Hc1dot.
  2: { simpl. rewrite scan_copy by done. rewrite <- !app_assoc. simpl.
       by destruct out. }
  apply bool_decide_eq_true in Hc1dot. subst c1.
  destruct seg as [|c2 seg]; [done |]. simpl in Hseg.
  apply andb_prop in Hseg as [Hc2 Hseg]. simpl.
  rewrite (plainByte_not_slash c2 Hc2). simpl.
  rewrite ?(plainByte_not_slash c2 Hc2).
  rewrite scan_copy by done. rewrite <- !app_assoc. simpl.
  by destruct out.
Qed.

Lemma scan_slash (rooted : bool) (rest : string) (out : list ascii) (dd : nat) :
  path.scan rooted true (String "/" rest) out dd = path.scan rooted false rest out dd.
Proof. reflexivity. Qed.

(** [Clean] on a path that is neither empty nor rooted. *)
Lemma Clean_unrooted (p : string) :
  p <> "" -> strings.HasPrefix p "/" = false ->
  path.Clean p = match path.scan false false p [] 0 with
                 | [] => "."
                 | out => string_of_list_ascii (rev out)
                 end.
Proof.
  destruct p as [|c p]; [done |]. intros _ Hc. simpl in Hc.
  rewrite andb_true_r in Hc. unfold path.Clean. cbv zeta. rewrite Hc.
  by destruct (path.scan false false (String c p) [] 0).
Qed.

(** Three plain segments are joined as they are. *)
Lemma Join_plain (r s b : string) :
  plainSegment r = true -> plainSegment s = true -> plainSegment b = true ->
  path.Join [r; s; b] = r +:+ "/" +:+ s +:+ "/" +:+ b.
Proof.
  intros Hr Hs Hb.
  assert (Hne : r <> "").
  { intros ->. done. }
  assert (Hroot : forall t, strings.HasPrefix (r +:+ t) "/" = false).
  { intros t. destruct r as [|c r']; [done |]. simpl.
    unfold plainSegment, plain in Hr. simpl in Hr.
    apply andb_prop in Hr as [[[[Hc _]%andb_prop _]%andb_prop _]%andb_prop _].
    by rewrite (plainByte_not_slash c Hc). }
  assert (Hscan :
    path.scan false false (r +:+ String "/" (s +:+ String "/" b)) [] 0
    = rev (list_ascii_of_string (r +:+ String "/" (s +:+ String "/" b)))).
  { rewrite scan_segment by done. simpl separated.
    rewrite scan_slash, scan_segment by done.
    rewrite scan_slash. rewrite <- (append_nil_r b) at 1.
    rewrite scan_segment by done. simpl path.scan.
    rewrite !app_nil_r.
    rewrite <- (string_of_list_ascii_of_string r) at 2.
    rewrite <- (string_of_list_ascii_of_string s) at 2.
    rewrite <- (string_of_list_ascii_of_string b) at 2.
    change (String "/" (string_of_list_ascii (list_ascii_of_string b)))
      with (string_of_list_ascii ("/"%char :: list_ascii_of_string b)).
    rewrite <- string_of_list_ascii_app.
    change (String "/" (string_of_list_ascii ?l))
      with (string_of_list_ascii ("/"%char :: l)).
    rewrite <- string_of_list_ascii_app.
    rewrite list_ascii_of_string_of_list_ascii.
    assert (Hsep : forall l : list ascii, l <> [] -> separated l = "/"%char :: l)
      by (by intros [|]).
    rewrite !Hsep.
    - rewrite !rev_app_distr. simpl. rewrite !rev_app_distr. simpl.
      by rewrite <- !app_assoc.
    - destruct r; [done |]. simpl. by destruct (rev _).
    - rewrite Hsep by (destruct r; [done |]; simpl; by destruct (rev _)).
      by destruct (rev (list_ascii_of_string s)). }
  unfold path.Join. rewrite bool_decide_eq_false_2 by done.
  unfold strings.Join.
  rewrite Clean_unrooted; [| by destruct r | apply Hroot].
  change (r +:+ "/" +:+ s +:+ "/" +:+ b)
    with (r +:+ String "/" (s +:+ String "/" b)).
  rewrite Hscan.
  destruct (rev _) eqn:Hrev.
  - apply (f_equal (@length ascii)) in Hrev. rewrite length_rev in Hrev.
    destruct r; done.
  - rewrite <- Hrev, rev_involutive. apply string_of_list_ascii_of_string.
Qed.

(** ** The bucket URL *)

Lemma plainSegment_plain (s : string) : plainSegment s = true -> plain s = true.
Proof.
  unfold plainSegment.
  by intros [[[? _]%andb_prop _]%andb_prop _]%andb_prop.
Qed.

Section PlainEndpoint.
Variable ep : Endpoint.t.
Variable obc : ObjectBucketClaim.t.
Hypothesis Hhost : plain (Endpoint.BucketHost ep) = true.
Hypothesis Hregion : plainSegment (Endpoint.Region ep) = true.
Hypothesis HsubRegion : plainSegment (Endpoint.SubRegion ep) = true.
Hypothesis Hname : plainSegment (Endpoint.BucketName ep) = true.

Let scheme : string :=
  if ObjectBucketClaimSpec.SSL (ObjectBucketClaim.Spec obc)
  then "https" else "http".
Let authority : string :=
  Endpoint.BucketHost ep
  +:+ (if 0 <? Endpoint.BucketPort ep
       then ":" +:+ strconv.Itoa (Endpoint.BucketPort ep) else "").
Let segments : string :=
  Endpoint.Region ep +:+ "/" +:+ Endpoint.SubRegion ep
  +:+ "/" +:+ Endpoint.BucketName ep.

Lemma bucketPath_plain : util.bucketPath ep = segments.
Proof. by apply Join_plain. Qed.

Lemma segments_bytes : allBytes pathByte segments = true.
Proof.
  pose proof (allBytes_impl plainByte pathByte _ plainByte_path
                (plainSegment_plain _ Hregion)) as H1.
  pose proof (allBytes_impl plainByte pathByte _ plainByte_path
                (plainSegment_plain _ HsubRegion)) as H2.
  pose proof (allBytes_impl plainByte pathByte _ plainByte_path
                (plainSegment_plain _ Hname)) as H3.
  unfold segments. rewrite !allBytes_app. simpl. by rewrite H1, H2, H3.
Qed.

Lemma authority_plain :
  allBytes authByte authority = true /\ url.parseHost authority = inr authority.
Proof.
  unfold authority. destruct (Z.ltb_spec 0 (Endpoint.BucketPort ep)).
  - split; [apply authority_bytes | apply parseHost_plain_port];
      auto using Itoa_digits.
  - rewrite append_nil_r. split; [| by apply parseHost_plain].
    by apply (allBytes_impl plainByte), Hhost; apply plainByte_auth.
Qed.

Lemma rawBucketURL_plain :
  util.rawBucketURL ep obc
  = scheme +:+ ":" +:+ "//" +:+ authority +:+ "/" +:+ segments.
Proof.
  unfold util.rawBucketURL. rewrite bucketPath_plain.
  unfold scheme, authority.
  destruct (ObjectBucketClaimSpec.SSL _), (0 <? Endpoint.BucketPort ep);
    rewrite ?append_nil_r, ?append_assoc; reflexivity.
Qed.

Lemma specBucketURL_plain :
  specBucketURL ep obc
  = scheme +:+ ":" +:+ "//" +:+ authority +:+ "/" +:+ segments.
Proof.
  unfold specBucketURL, scheme, authority, segments.
  destruct (ObjectBucketClaimSpec.SSL _), (0 <? Endpoint.BucketPort ep);
    rewrite ?append_nil_r, ?append_assoc; reflexivity.
Qed.

(** On plain names the URL that is parsed and written out again is the
    URL of the design document. *)
Lemma bucketURL_plain :
  exists u, url.Parse (util.rawBucketURL ep obc) = inr u
            /\ url.String u = specBucketURL ep obc.
Proof.
  assert (Hs : scheme = "http" \/ scheme = "https")
    by (unfold scheme; destruct (ObjectBucketClaimSpec.SSL _); auto).
  destruct authority_plain as [Ha Hh].
  rewrite rawBucketURL_plain, specBucketURL_plain.
  exists (plainURL scheme authority segments). split.
  - apply (Parse_plain scheme authority segments Hs Ha Hh segments_bytes).
  - apply (String_plain scheme authority segments Hs Ha segments_bytes).
Qed.

Lemma NewBucketConfigMap_plain :
  exists cm,
    util.NewBucketConfigMap (Some ep) (Some obc) = (Some cm, None)
    /\ ConfigMap.Data cm !! util.BucketURL = Some (specBucketURL ep obc)
    /\ ConfigMap.Data cm !! util.BucketSSL
       = Some (strconv.FormatBool (Endpoint.SSL ep))
    /\ ConfigMap.Data cm !! util.BucketName
       = Some (ObjectBucketClaimSpec.BucketName (ObjectBucketClaim.Spec obc)).
Proof.
  destruct bucketURL_plain as (u & Hu & Hs). unfold util.NewBucketConfigMap.
  rewrite Hu. eexists. split; [reflexivity |]. simpl. rewrite Hs.
  repeat split; by simplify_map_eq.
Qed.

Lemma specBucketURL_https :
  urlIsHTTPS (specBucketURL ep obc)
  = ObjectBucketClaimSpec.SSL (ObjectBucketClaim.Spec obc).
Proof.
  unfold specBucketURL. by destruct (ObjectBucketClaimSpec.SSL _).
Qed.

Lemma specBucketURL_lastSegment :
  urlLastSegment (specBucketURL ep obc) = Endpoint.BucketName ep.
Proof.
  unfold specBucketURL. rewrite <- !append_assoc. rewrite append_assoc.
  set (x := (_ +:+ Endpoint.SubRegion ep)).
  change ("/" +:+ Endpoint.BucketName ep)
    with (String "/" (Endpoint.BucketName ep)).
  unfold urlLastSegment. rewrite (LastIndexByte_app "/").
  - replace (S (String.length x)) with (String.length (x +:+ "/")).
    + change (x +:+ String "/" (Endpoint.BucketName ep))
        with (x +:+ "/" +:+ Endpoint.BucketName ep).
      rewrite <- append_assoc. apply sliceFrom_app.
    + clear. induction x as [|c x IH]; simpl; [done | by rewrite IH].
  - apply (LastIndexByte_absent plainByte "/" eq_refl).
    by apply plainSegment_plain.
Qed.
End PlainEndpoint.

(** ** The scheme of the bucket URL, whatever the names *)

Section Scheme.
Variable scheme : string.
Hypothesis Hscheme : scheme = "http" \/ scheme = "https".

Lemma parse_keeps_scheme (x : string) (u : url.URL) :
  url.parse (scheme +:+ "://" +:+ x) = inr u -> url.Scheme u = scheme.
Proof.
  unfold url.parse.
  assert (Hg : url.getscheme (scheme +:+ "://" +:+ x) = inr (scheme, "//" +:+ x))
    by by destruct Hscheme as [-> | ->].
  assert (Hl : strings.ToLower scheme = scheme)
    by by destruct Hscheme as [-> | ->].
  assert (Hstar : bool_decide (scheme +:+ "://" +:+ x = "*") = false)
    by by destruct Hscheme as [-> | ->].
  rewrite Hg, Hl, Hstar. clear Hg Hl Hstar.
  intros H. repeat (case_match; simplify_eq); done.
Qed.

Lemma split_fragment (x : string) :
  exists x' frag,
    url.split (scheme +:+ "://" +:+ x) "#" true = (scheme +:+ "://" +:+ x', frag).
Proof.
  unfold url.split.
  destruct Hscheme as [-> | ->]; simpl;
    destruct (strings.IndexByte x "#"); simpl; by eexists _, _.
Qed.

Lemma Parse_keeps_scheme (x : string) (u : url.URL) :
  url.Parse (scheme +:+ "://" +:+ x) = inr u -> url.Scheme u = scheme.
Proof.
  unfold url.Parse. destruct (split_fragment x) as (x' & frag & ->).
  intros H.
  repeat (case_match; simplify_eq); simpl; eauto using parse_keeps_scheme.
Qed.
End Scheme.

(** [URL.String] starts with the scheme and a colon. *)
Lemma String_starts_with_scheme (u : url.URL) :
  url.Scheme u <> "" -> exists t, url.String u = url.Scheme u +:+ ":" +:+ t.
Proof.
  intros Hs. unfold url.String.
  rewrite (bool_decide_eq_false_2 (url.Scheme u = "")) by done.
  repeat case_match; rewrite ?append_assoc; eexists; reflexivity.
Qed.

(** The keys of the extended ConfigMap, whatever the names: the scheme of
    [BUCKET_URL] is the claim's SSL flag, [BUCKET_SSL] is the endpoint's,
    and [BUCKET_NAME] is the claim's bucket name. *)
Lemma NewBucketConfigMap_keys (ep : Endpoint.t) (obc : ObjectBucketClaim.t)
      (cm : ConfigMap.t) :
  util.NewBucketConfigMap (Some ep) (Some obc) = (Some cm, None) ->
  exists u,
    ConfigMap.Data cm !! util.BucketURL = Some u
    /\ urlIsHTTPS u = ObjectBucketClaimSpec.SSL (ObjectBucketClaim.Spec obc)
    /\ ConfigMap.Data cm !! util.BucketSSL
       = Some (strconv.FormatBool (Endpoint.SSL ep))
    /\ ConfigMap.Data cm !! util.BucketName
       = Some (ObjectBucketClaimSpec.BucketName (ObjectBucketClaim.Spec obc)).
Proof.
  unfold util.NewBucketConfigMap.
  destruct (url.Parse _) as [e | u] eqn:Hu; [done |]. intros [= <-].
  exists (url.String u). simpl. split; [by simplify_map_eq |].
  split; [| split; by simplify_map_eq].
  set (ssl := ObjectBucketClaimSpec.SSL (ObjectBucketClaim.Spec obc)) in *.
  set (scheme := if ssl then "https" else "http").
  assert (Hs : scheme = "http" \/ scheme = "https")
    by (subst scheme; destruct ssl; auto).
  assert (Hraw : exists x, util.rawBucketURL ep obc = scheme +:+ "://" +:+ x).
  { unfold util.rawBucketURL. fold ssl. subst scheme.
    destruct ssl, (0 <? Endpoint.BucketPort ep);
      rewrite ?append_assoc; by eexists. }
  destruct Hraw as [x Hraw]. rewrite Hraw in Hu.
  apply (Parse_keeps_scheme scheme Hs) in Hu.
  destruct (String_starts_with_scheme u) as [t Ht].
  { rewrite Hu. by destruct Hs as [-> | ->]. }
  rewrite Ht, Hu. unfold urlIsHTTPS. subst scheme. by destruct ssl.
Qed.

(** C2 (as amended).  For every claim and every endpoint whose host is
    plain (letters, digits, [-], [_], [.], [~]) and whose region, subregion
    and bucket name are plain segments (not empty, plain, neither [.] nor
    [..]), the extended builder returns a ConfigMap whose [BUCKET_URL] is
    [scheme://host[:port]/region/subregion/bucketName], with [https] exactly
    when the claim asks for SSL and without the port segment when the port
    is not positive.  (In general the path is
    [path.Join(region, subregion, bucketName)], which drops empty segments
    and cleans the rest, and the URL goes through [url.Parse] and
    [URL.String].) *)
Theorem bucket_url_of_plain_names (ep : Endpoint.t) (obc : ObjectBucketClaim.t) :
  plain (Endpoint.BucketHost ep) = true ->
  plainSegment (Endpoint.Region ep) = true ->
  plainSegment (Endpoint.SubRegion ep) = true ->
  plainSegment (Endpoint.BucketName ep) = true ->
  exists cm,
    util.NewBucketConfigMap (Some ep) (Some obc) = (Some cm, None)
    /\ ConfigMap.Data cm !! util.BucketURL = Some (specBucketURL ep obc).
Proof.
  intros Hh Hr Hs Hb.
  destruct (NewBucketConfigMap_plain ep obc Hh Hr Hs Hb) as (cm & Hcm & Hu & _).
  by exists cm.
Qed.

(** C2 on the scenario of the design document: claim [ns1/c1] with SSL,
    endpoint [s3.example.com], port 0, region [us], subregion [east], bucket
    [b1]. *)
Lemma bucket_url_of_plain_names_witness :
  exists cm,
    util.NewBucketConfigMap
      (Some (fake.endpoint "s3.example.com" 0 "us" "east" "b1" false))
      (Some (fake.claim "ns1" "c1" "b1" true)) = (Some cm, None)
    /\ ConfigMap.Data cm !! util.BucketURL
       = Some "https://s3.example.com/us/east/b1".
Proof.
  apply (bucket_url_of_plain_names
           (fake.endpoint "s3.example.com" 0 "us" "east" "b1" false)
           (fake.claim "ns1" "c1" "b1" true)); reflexivity.
Defined.

(** The claim C2 as it was stated fails on an endpoint without a region:
    the design document composes [https://s3.example.com//east/b1], the
    builder returns [https://s3.example.com/east/b1]. *)
Lemma bucket_url_drops_empty_region :
  ~ (forall cm,
        util.NewBucketConfigMap
          (Some (fake.endpoint "s3.example.com" 0 "" "east" "b1" false))
          (Some (fake.claim "ns1" "c1" "b1" true)) = (Some cm, None) ->
        ConfigMap.Data cm !! util.BucketURL
        = Some (specBucketURL
                  (fake.endpoint "s3.example.com" 0 "" "east" "b1" false)
                  (fake.claim "ns1" "c1" "b1" true))).
Proof.
  intros H.
  destruct (util.NewBucketConfigMap _ _) as [[cm|] [e|]] eqn:Hcm;
    try (vm_compute in Hcm; discriminate).
  specialize (H cm eq_refl).
  vm_compute in Hcm. injection Hcm as <-. vm_compute in H. discriminate.
Qed.

(** C10 (as amended).  In the extended builder the URL and the plain keys
    read different inputs.  Whenever a ConfigMap is returned, the scheme of
    [BUCKET_URL] is [https] exactly when the claim asks for SSL while
    [BUCKET_SSL] is the endpoint's SSL flag, and [BUCKET_NAME] is the claim's
    bucket name; so when the two SSL flags differ, [BUCKET_SSL] contradicts
    the scheme of the URL.  When moreover the endpoint's host, region,
    subregion and bucket name are plain, the last segment of the URL is the
    endpoint's bucket name; so when the two bucket names differ,
    [BUCKET_NAME] is not the bucket the URL points to. *)
Theorem url_and_keys_read_different_inputs (ep : Endpoint.t)
        (obc : ObjectBucketClaim.t) (cm : ConfigMap.t) :
  util.NewBucketConfigMap (Some ep) (Some obc) = (Some cm, None) ->
  let claimSSL := ObjectBucketClaimSpec.SSL (ObjectBucketClaim.Spec obc) in
  let claimName := ObjectBucketClaimSpec.BucketName (ObjectBucketClaim.Spec obc) in
  exists u,
    ConfigMap.Data cm !! util.BucketURL = Some u
    /\ urlIsHTTPS u = claimSSL
    /\ ConfigMap.Data cm !! util.BucketSSL
       = Some (strconv.FormatBool (Endpoint.SSL ep))
    /\ ConfigMap.Data cm !! util.BucketName = Some claimName
    /\ (claimSSL <> Endpoint.SSL ep ->
        ConfigMap.Data cm !! util.BucketSSL
        <> Some (strconv.FormatBool (urlIsHTTPS u)))
    /\ (plain (Endpoint.BucketHost ep) = true ->
        plainSegment (Endpoint.Region ep) = true ->
        plainSegment (Endpoint.SubRegion ep) = true ->
        plainSegment (Endpoint.BucketName ep) = true ->
        urlLastSegment u = Endpoint.BucketName ep
        /\ (Endpoint.BucketName ep <> claimName ->
            ConfigMap.Data cm !! util.BucketName <> Some (urlLastSegment u))).
Proof.
  intros Hcm claimSSL claimName.
  destruct (NewBucketConfigMap_keys ep obc cm Hcm) as (u & Hu & Hssl & Hk & Hn).
  exists u. repeat split; try done.
  - intros Hne. rewrite Hk, Hssl. fold claimSSL.
    destruct claimSSL, (Endpoint.SSL ep); done.
  - destruct (NewBucketConfigMap_plain ep obc) as (cm' & Hcm' & Hu' & _);
      try done.
    rewrite Hcm in Hcm'. injection Hcm' as <-. rewrite Hu in Hu'.
    injection Hu' as ->. by apply specBucketURL_lastSegment.
  - intros Hne. rewrite Hn.
    destruct (NewBucketConfigMap_plain ep obc) as (cm' & Hcm' & Hu' & _);
      try done.
    rewrite Hcm in Hcm'. injection Hcm' as <-. rewrite Hu in Hu'.
    injection Hu' as ->. rewrite specBucketURL_lastSegment by done.
    intros [= Heq]. by apply Hne.
Qed.

(** C10 on a claim for bucket [b2] without SSL and the endpoint of the
    design document, bucket [b1] with SSL: the URL says [http] and [b1], the
    keys say SSL and [b2]. *)
Lemma url_and_keys_read_different_inputs_witness :
  exists cm,
    util.NewBucketConfigMap
      (Some (fake.endpoint "s3.example.com" 0 "us" "east" "b1" true))
      (Some (fake.claim "ns1" "c1" "b2" false)) = (Some cm, None)
    /\ ConfigMap.Data cm !! util.BucketURL
       = Some "http://s3.example.com/us/east/b1"
    /\ ConfigMap.Data cm !! util.BucketSSL = Some "true"
    /\ ConfigMap.Data cm !! util.BucketName = Some "b2".
Proof.
  destruct (util.NewBucketConfigMap
              (Some (fake.endpoint "s3.example.com" 0 "us" "east" "b1" true))
              (Some (fake.claim "ns1" "c1" "b2" false)))
    as [[cm|] [e|]] eqn:Hcm; try (vm_compute in Hcm; discriminate).
  destruct (url_and_keys_read_different_inputs _ _ cm Hcm)
    as (u & Hu & _ & Hssl & Hname & _).
  exists cm. split; [reflexivity |]. rewrite Hssl, Hname.
  split; [| by split].
  vm_compute in Hcm. injection Hcm as <-. reflexivity.
Defined.

(** The claim C10 as it was stated fails on an endpoint whose bucket name
    is [b1/] and a claim for bucket [b1]: the two names differ, and yet the
    URL ends in [b1] and [BUCKET_NAME] is [b1], as the SSL flags agree with
    each other; nothing in the ConfigMap is inconsistent. *)
Lemma differing_names_can_agree_in_the_config_map :
  let ep := fake.endpoint "s3.example.com" 0 "us" "east" "b1/" true in
  let obc := fake.claim "ns1" "c1" "b1" true in
  ~ ((Endpoint.BucketName ep
      <> ObjectBucketClaimSpec.BucketName (ObjectBucketClaim.Spec obc)
      \/ Endpoint.SSL ep <> ObjectBucketClaimSpec.SSL (ObjectBucketClaim.Spec obc)) ->
     forall cm u,
       util.NewBucketConfigMap (Some ep) (Some obc) = (Some cm, None) ->
       ConfigMap.Data cm !! util.BucketURL = Some u ->
       ConfigMap.Data cm !! util.BucketSSL
       <> Some (strconv.FormatBool (urlIsHTTPS u))
       \/ ConfigMap.Data cm !! util.BucketName <> Some (urlLastSegment u)).
Proof.
  intros ep obc H.
  destruct (util.NewBucketConfigMap (Some ep) (Some obc)) as [[cm|] [e|]] eqn:Hcm;
    try (vm_compute in Hcm; discriminate).
  destruct (ConfigMap.Data cm !! util.BucketURL) as [u|] eqn:Hu.
  2: { vm_compute in Hcm. injection Hcm as <-. vm_compute in Hu. discriminate. }
  assert (Hne : Endpoint.BucketName ep
                <> ObjectBucketClaimSpec.BucketName (ObjectBucketClaim.Spec obc))
    by discriminate.
  specialize (H (or_introl Hne) cm u eq_refl Hu).
  vm_compute in Hcm. injection Hcm as <-.
  vm_compute in Hu. injection Hu as <-.
  destruct H as [H | H]; apply H; vm_compute; reflexivity.
Qed.


(** * Further properties *)

(** ** The builders and their inputs *)

(** X1.  A builder returns either an object or an error, never both and
    never neither.  The two builders of package [provisioner] and
    [util.NewCredentialsSecret] fail exactly when one of their inputs is nil;
    [util.NewBucketConfigMap] fails exactly when an input is nil or
    [url.Parse] refuses the URL it composed. *)
Theorem builders_fail_exactly_on_nil (ep : option Endpoint.t)
        (obc : option ObjectBucketClaim.t) (auth : option Authentication.t) :
  (is_Some (fst (newBucketConfigMap ep obc)) <-> snd (newBucketConfigMap ep obc) = None)
  /\ (snd (newBucketConfigMap ep obc) = None <-> is_Some ep /\ is_Some obc)
  /\ (is_Some (fst (newCredentialsSecret obc auth))
      <-> snd (newCredentialsSecret obc auth) = None)
  /\ (snd (newCredentialsSecret obc auth) = None <-> is_Some obc /\ is_Some auth)
  /\ (is_Some (fst (util.NewCredentialsSecret obc auth))
      <-> snd (util.NewCredentialsSecret obc auth) = None)
  /\ (snd (util.NewCredentialsSecret obc auth) = None <-> is_Some obc /\ is_Some auth)
  /\ (is_Some (fst (util.NewBucketConfigMap ep obc))
      <-> snd (util.NewBucketConfigMap ep obc) = None)
  /\ (snd (util.NewBucketConfigMap ep obc) = None
      <-> exists e o u, ep = Some e /\ obc = Some o
                        /\ url.Parse (util.rawBucketURL e o) = inr u).
Proof.
  repeat apply conj;
    destruct ep as [e|], obc as [o|], auth as [a|]; simpl;
    try destruct (url.Parse (util.rawBucketURL e o)) as [err|u] eqn:Hu; simpl;
    unfold is_Some; intros H;
    repeat match goal with
           | H : ex _ |- _ => destruct H
           | H : and _ _ |- _ => destruct H
           end;
    try discriminate; try congruence; eauto 10.
Qed.

(** ** The poll of the create handlers *)

Section RetryCondition.
Context {St T : Type}.
Variable res : Resource.
Variable ns : string.
Variable inj : T -> Object.
Variable i : ResourceInterface St T.

Local Notation "'fn'" := (retryCondition (doCreate res ns inj i)) (only parsing).

(** One run of the condition: the request is sent, and the answer of the
    store decides. *)
Lemma retryCondition_run (o : T) (w : World St) :
  let answer := Create i o (server w) in
  fn o w
  = ((fst (fst answer),
      match snd (fst answer) with
      | Some e => if errors.IsAlreadyExists (Some e) then (true, Some e)
                  else (false, None)
      | None => (true, None)
      end),
     after w (snd answer) (mkCall res ns VCreate (objectName (inj o)) (Some (inj o)))).
Proof.
  intros answer. subst answer. unfold retryCondition, bind, doCreate.
  rewrite request_run. destruct (Create i o (server w)) as [[r [e|]] s]; simpl.
  - by destruct (errors.IsAlreadyExists (Some e)).
  - done.
Qed.

(** The requests of the wait are creates of the collection, one at least
    and one more than the ticks at most, added to those sent before. *)
Lemma WaitFor_requests (ticks : nat) (o : T) (w : World St) :
  exists cs,
    calls (worldOf (wait.WaitFor ticks fn o w)) = calls w ++ cs
    /\ (1 <= length cs <= S ticks)%nat
    /\ Forall (fun c => verb c = VCreate /\ resource c = res /\ callNamespace c = ns) cs.
Proof.
  revert o w. induction ticks as [|n IH]; intros o w; simpl; unfold bind;
    rewrite retryCondition_run;
    destruct (snd (fst (Create i o (server w)))) as [e|];
    try destruct (errors.IsAlreadyExists (Some e)); simpl;
    try (eexists; split; [reflexivity |]; split; [simpl; lia |];
         by repeat constructor).
  match goal with
  | |- context [wait.WaitFor n fn ?o1 ?w1] =>
      destruct (IH o1 w1) as (cs & Hcs & Hlen & Hall)
  end.
  rewrite Hcs. simpl. rewrite <- app_assoc. eexists. split; [reflexivity |].
  split; [simpl; lia |]. by repeat constructor.
Qed.

Lemma PollImmediate_requests (ri rt : Duration) (o : T) (w : World St) :
  exists cs,
    calls (worldOf (wait.PollImmediate ri rt fn o w)) = calls w ++ cs
    /\ (1 <= length cs <= S (S (clock w ri rt)))%nat
    /\ Forall (fun c => verb c = VCreate /\ resource c = res /\ callNamespace c = ns) cs.
Proof.
  unfold wait.PollImmediate, bind. rewrite retryCondition_run.
  destruct (snd (fst (Create i o (server w)))) as [e|];
    try destruct (errors.IsAlreadyExists (Some e)); simpl;
    try (eexists; split; [reflexivity |]; split; [simpl; lia |];
         by repeat constructor).
  match goal with
  | |- context [wait.WaitFor ?n fn ?o1 ?w1] =>
      destruct (WaitFor_requests n o1 w1) as (cs & Hcs & Hlen & Hall)
  end.
  rewrite Hcs. simpl. rewrite <- app_assoc. eexists. split; [reflexivity |].
  split; [simpl in *; lia |]. by repeat constructor.
Qed.




End RetryCondition.

Section RetryCondition2.
Context {St T : Type}.
Variable res : Resource.
Variable ns : string.
Variable inj : T -> Object.
Variable i : ResourceInterface St T.

End RetryCondition2.

(** ** Create, beyond the first answer *)

Section CreateMore.
Context {St : Type}.
Implicit Types (kc : kubernetes.Interface St) (w : World St).

(** [createSecret] and [createConfigMap] are the poll of the retry
    condition on the object that the builder made. *)
Lemma createSecret_poll kc obc auth ri rt w secret :
  newCredentialsSecret (Some obc) (Some auth) = (Some secret, None) ->
  createSecret (Some obc) (Some auth) kc ri rt w
  = let r := wait.PollImmediate ri rt
               (retryCondition
                  (doCreate secrets (ObjectBucketClaim.Namespace obc) SecretObject
                            (kubernetes.Secrets kc (ObjectBucketClaim.Namespace obc))))
               secret w in
    ((Some (fst (fst r)), snd (fst r)), snd r).
Proof.
  intros H. unfold createSecret. rewrite H. unfold bind at 1.
  change (fun secret0 : Secret.t => _)
    with (retryCondition
            (doCreate secrets (ObjectBucketClaim.Namespace obc) SecretObject
                      (kubernetes.Secrets kc (ObjectBucketClaim.Namespace obc)))).
  by destruct (wait.PollImmediate _ _ _ _ _) as [[s e] w'].
Qed.

Lemma createConfigMap_poll kc obc ep ri rt w cm :
  newBucketConfigMap (Some ep) (Some obc) = (Some cm, None) ->
  createConfigMap (Some obc) (Some ep) kc ri rt w
  = let r := wait.PollImmediate ri rt
               (retryCondition
                  (doCreate configmaps (ObjectBucketClaim.Namespace obc)
                            ConfigMapObject
                            (kubernetes.ConfigMaps kc (ObjectBucketClaim.Namespace obc))))
               cm w in
    ((Some (fst (fst r)), snd (fst r)), snd r).
Proof.
  intros H. unfold createConfigMap. rewrite H. unfold bind at 1.
  change (fun configMap : ConfigMap.t => _)
    with (retryCondition
            (doCreate configmaps (ObjectBucketClaim.Namespace obc) ConfigMapObject
                      (kubernetes.ConfigMaps kc (ObjectBucketClaim.Namespace obc)))).
  by destruct (wait.PollImmediate _ _ _ _ _) as [[s e] w'].
Qed.
End CreateMore.

(** X2.  When the builder fails, [createSecret] and [createConfigMap]
    return the builder's error and no object, and the store is not
    contacted: the world is as it was. *)
Theorem create_without_inputs_sends_nothing {St} (kc : kubernetes.Interface St)
        (obc1 obc2 : option ObjectBucketClaim.t) (auth : option Authentication.t)
        (ep : option Endpoint.t) (es ec : error) (ri rt : Duration) (w : World St) :
  newCredentialsSecret obc1 auth = (None, Some es) ->
  newBucketConfigMap ep obc2 = (None, Some ec) ->
  createSecret obc1 auth kc ri rt w = ((None, Some es), w)
  /\ createConfigMap obc2 ep kc ri rt w = ((None, Some ec), w).
Proof.
  intros Hs Hc. unfold createSecret, createConfigMap. by rewrite Hs, Hc.
Qed.

Lemma create_without_inputs_sends_nothing_witness :
  (exists e, createSecret None (Some fake.auth) (fake.kube fake.healthy)
                          defaultRetryBaseInterval defaultRetryTimeout fake.world
             = ((None, Some e), fake.world))
  /\ (exists e, createConfigMap (Some (fake.claim "ns1" "c1" "b1" true)) None
                                (fake.kube fake.healthy)
                                defaultRetryBaseInterval defaultRetryTimeout fake.world
                = ((None, Some e), fake.world)).
Proof.
  destruct (create_without_inputs_sends_nothing
              (fake.kube fake.healthy) None (Some (fake.claim "ns1" "c1" "b1" true))
              (Some fake.auth) None _ _
              defaultRetryBaseInterval defaultRetryTimeout fake.world
              eq_refl eq_refl) as [Hs Hc].
  split; eexists; [exact Hs | exact Hc].
Defined.







(** X6.  Whatever the store answers, [createSecret] and
    [createConfigMap] on a claim with its inputs send at least one request
    and at most two more than the clock has ticks, and every one of them is
    a create in the namespace of the claim, also when a refused create
    handed back an object of another namespace. *)
Theorem create_requests_are_bounded {St} (kc : kubernetes.Interface St)
        (obc : ObjectBucketClaim.t) (auth : Authentication.t) (ep : Endpoint.t)
        (ri rt : Duration) (w : World St) :
  let ns := ObjectBucketClaim.Namespace obc in
  let budget := S (S (clock w ri rt)) in
  let ss := sent w (worldOf (createSecret (Some obc) (Some auth) kc ri rt w)) in
  let sc := sent w (worldOf (createConfigMap (Some obc) (Some ep) kc ri rt w)) in
  ((1 <= length ss <= budget)%nat
   /\ Forall (fun c => verb c = VCreate /\ resource c = secrets
                       /\ callNamespace c = ns) ss)
  /\ ((1 <= length sc <= budget)%nat
      /\ Forall (fun c => verb c = VCreate /\ resource c = configmaps
                          /\ callNamespace c = ns) sc).
Proof.
  intros ns budget ss sc. subst ss sc budget. split.
  - erewrite createSecret_poll by reflexivity.
    match goal with
    | |- context [wait.PollImmediate ri rt _ ?o w] =>
        destruct (PollImmediate_requests secrets ns SecretObject
                    (kubernetes.Secrets kc ns) ri rt o w) as (cs & Hcs & Hlen & Hall)
    end.
    unfold worldOf in Hcs |- *. cbv zeta. cbn [snd]. subst ns.
    by rewrite (sent_app _ _ _ Hcs).
  - erewrite createConfigMap_poll by reflexivity.
    match goal with
    | |- context [wait.PollImmediate ri rt _ ?o w] =>
        destruct (PollImmediate_requests configmaps ns ConfigMapObject
                    (kubernetes.ConfigMaps kc ns) ri rt o w) as (cs & Hcs & Hlen & Hall)
    end.
    unfold worldOf in Hcs |- *. cbv zeta. cbn [snd]. subst ns.
    by rewrite (sent_app _ _ _ Hcs).
Qed.

(** ** Update of a claim *)

(** X7.  [updateClaim] makes a single attempt, whatever the interval,
    the timeout and the clock: one [Update] of the claim it was given, in
    the namespace of that claim; the object and the error that the store
    answered are the result, and a failed update is not tried again. *)
Theorem updateClaim_single_attempt {St} (c : versioned.Interface St)
        (obc : ObjectBucketClaim.t) (ri rt : Duration) (w : World St) :
  let ns := ObjectBucketClaim.Namespace obc in
  let answer := Update (versioned.ObjectBucketClaims c ns) obc (server w) in
  updateClaim c obc ri rt w
  = ((Some (fst (fst answer)), snd (fst answer)),
     after w (snd answer)
           (mkCall objectbucketclaims ns VUpdate (ObjectBucketClaim.Name obc)
                   (Some (ClaimObject obc)))).
Proof.
  intros ns answer. unfold updateClaim.
  set (fn := fun _ : option ObjectBucketClaim.t => _).
  assert (Hfn : fn None w
    = ((Some (fst (fst answer)), (isNil (snd (fst answer)), snd (fst answer))),
       after w (snd answer)
             (mkCall objectbucketclaims ns VUpdate (ObjectBucketClaim.Name obc)
                     (Some (ClaimObject obc))))).
  { subst fn answer. unfold bind, ObjectBucketClaims_Update, doUpdate, ret.
    rewrite request_run. fold ns. by destruct (Update _ _ _) as [[r e] s]. }
  destruct (snd (fst answer)) as [e|] eqn:He.
  - by erewrite PollImmediate_error by exact Hfn.
  - by erewrite PollImmediate_done by exact Hfn.
Qed.

(** ** Release, beyond the first request *)

Section ReleaseRuns.
Context {St : Type}.
Implicit Types (kc : kubernetes.Interface St) (vc : versioned.Interface St)
         (w : World St).

Ltac run_release :=
  unfold releaseConfigMap, releaseSecret, releaseOBC,
    ConfigMaps_Get, ConfigMaps_Update, Secrets_Get, Secrets_Update,
    ObjectBucketClaims_Get, ObjectBucketClaims_Update,
    doGet, doUpdate, bind, ret;
  rewrite ?request_run; simpl.

(** The whole run of [releaseConfigMap] on an object: a [Get] by the
    namespace and name of the caller's object, and when it succeeds an
    [Update] of what it returned, less the finalizer. *)
Lemma releaseConfigMap_run kc cm w :
  let ns := ConfigMap.Namespace cm in
  let get := Get (kubernetes.ConfigMaps kc ns) (ConfigMap.Name cm) (server w) in
  let got := removeFinalizerConfigMap (fst (fst get)) in
  let update :=
    Update (kubernetes.ConfigMaps kc (ConfigMap.Namespace got)) got (snd get) in
  let w1 := after w (snd get) (mkCall configmaps ns VGet (ConfigMap.Name cm) None) in
  releaseConfigMap (Some cm) kc w
  = match snd (fst get) with
    | Some e => (Some e, w1)
    | None =>
        (snd (fst update),
         after w1 (snd update)
               (mkCall configmaps (ConfigMap.Namespace got) VUpdate
                       (ConfigMap.Name got) (Some (ConfigMapObject got))))
    end.
Proof.
  intros ns get got update w1. subst w1 update got. run_release.
  fold ns. fold get. destruct get as [[o [e|]] s]; simpl; [done |].
  rewrite request_run. simpl.
  by destruct (Update _ _ _) as [[o' [e'|]] s'].
Qed.

Lemma releaseSecret_run kc sec w :
  let ns := Secret.Namespace sec in
  let get := Get (kubernetes.Secrets kc ns) (Secret.Name sec) (server w) in
  let got := removeFinalizerSecret (fst (fst get)) in
  let update :=
    Update (kubernetes.Secrets kc (Secret.Namespace got)) got (snd get) in
  let w1 := after w (snd get) (mkCall secrets ns VGet (Secret.Name sec) None) in
  releaseSecret (Some sec) kc w
  = match snd (fst get) with
    | Some e => (Some e, w1)
    | None =>
        (snd (fst update),
         after w1 (snd update)
               (mkCall secrets (Secret.Namespace got) VUpdate
                       (Secret.Name got) (Some (SecretObject got))))
    end.
Proof.
  intros ns get got update w1. subst w1 update got. run_release.
  fold ns. fold get. destruct get as [[o [e|]] s]; simpl; [done |].
  rewrite request_run. simpl.
  by destruct (Update _ _ _) as [[o' [e'|]] s'].
Qed.

(** [releaseOBC] runs the same two requests and wraps either error in a
    message that names the caller's claim. *)
Lemma releaseOBC_run vc obc w :
  let ns := ObjectBucketClaim.Namespace obc in
  let nsName := ns +:+ "/" +:+ ObjectBucketClaim.Name obc in
  let get := Get (versioned.ObjectBucketClaims vc ns) (ObjectBucketClaim.Name obc)
                 (server w) in
  let got := removeFinalizerClaim (fst (fst get)) in
  let update :=
    Update (versioned.ObjectBucketClaims vc (ObjectBucketClaim.Namespace got))
           got (snd get) in
  let w1 := after w (snd get)
                  (mkCall objectbucketclaims ns VGet (ObjectBucketClaim.Name obc)
                          None) in
  releaseOBC (Some obc) vc w
  = match snd (fst get) with
    | Some e =>
        (Some (Wrapf "unable to Get obc %q in order to remove finalizer: %v"
                     [nsName] e), w1)
    | None =>
        (match snd (fst update) with
         | Some e =>
             Some (Wrapf "unable to Update obc %q to reflect removed finalizer: %v"
                         [nsName] e)
         | None => None
         end,
         after w1 (snd update)
               (mkCall objectbucketclaims (ObjectBucketClaim.Namespace got) VUpdate
                       (ObjectBucketClaim.Name got) (Some (ClaimObject got))))
    end.
Proof.
  intros ns nsName get got update w1. subst w1 update got. run_release.
  fold ns. fold get. destruct get as [[o [e|]] s]; simpl; [done |].
  rewrite request_run. simpl.
  by destruct (Update _ _ _) as [[o' [e'|]] s'].
Qed.
End ReleaseRuns.



(** X9.  Release never deletes and never creates.  Whatever the
    reference and whatever the store answers, [releaseConfigMap],
    [releaseSecret] and [releaseOBC] send at most two requests, and each of
    them is a [Get] or an [Update]: the removal of the object itself is left
    to the store. *)
Theorem release_only_reads_and_updates {St} (kc : kubernetes.Interface St)
        (vc : versioned.Interface St) (cm : option ConfigMap.t)
        (sec : option Secret.t) (obc : option ObjectBucketClaim.t) (w : World St) :
  let quiet (cs : list Call) :=
    (length cs <= 2)%nat
    /\ Forall (fun c => verb c = VGet \/ verb c = VUpdate) cs in
  quiet (sent w (worldOf (releaseConfigMap cm kc w)))
  /\ quiet (sent w (worldOf (releaseSecret sec kc w)))
  /\ quiet (sent w (worldOf (releaseOBC obc vc w))).
Proof.
  intros quiet. subst quiet. cbv beta.
  assert (Hnone : forall w0 : World St, sent w0 w0 = []).
  { intros w0. unfold sent. by rewrite drop_all. }
  destruct cm as [cm|], sec as [sec|], obc as [obc|];
    rewrite ?releaseConfigMap_run, ?releaseSecret_run, ?releaseOBC_run;
    repeat match goal with
           | |- context [match ?x with Some _ => _ | None => _ end] => destruct x
           end;
    unfold worldOf; simpl; rewrite ?Hnone;
    repeat split;
    try (erewrite sent_app by (simpl; rewrite <- ?app_assoc; reflexivity));
    simpl; try lia;
    repeat match goal with
           | |- Forall _ _ => constructor
           end; simpl; auto.
Qed.

(** X10.  An error of [releaseOBC] is never the error of the store: it
    is a message built around it, so neither [errors.IsNotFound] nor
    [errors.IsAlreadyExists] recognises the cause in it, not even when the
    store answered "not found". *)
Theorem releaseOBC_error_hides_its_cause {St} (vc : versioned.Interface St)
        (obc : option ObjectBucketClaim.t) (w : World St) (e : error) :
  fst (releaseOBC obc vc w) = Some e ->
  (exists format args cause, e = Wrapf format args cause)
  /\ errors.IsNotFound (Some e) = false
  /\ errors.IsAlreadyExists (Some e) = false.
Proof.
  destruct obc as [obc|]; [| discriminate].
  rewrite releaseOBC_run.
  repeat match goal with
         | |- context [match ?x with Some _ => _ | None => _ end] => destruct x
         end;
    simpl; intros H; simplify_eq; eauto 10.
Qed.

Lemma releaseOBC_error_hides_its_cause_witness :
  exists e,
    fst (releaseOBC (Some (fake.claim "ns1" "c1" "b1" true))
                    (fake.versioned (fake.failsAt 0 fake.notFound)) fake.world)
    = Some e
    /\ errors.IsNotFound (Some e) = false.
Proof.
  eexists. split; [reflexivity |].
  apply (releaseOBC_error_hides_its_cause
           (fake.versioned (fake.failsAt 0 fake.notFound))
           (Some (fake.claim "ns1" "c1" "b1" true)) fake.world _ eq_refl).
Defined.

(** ** Deletion of a bucket *)

(** X11.  [deleteObjectBucket] on an object returns nil exactly when the
    [Update] succeeded and the [Delete] of the name it returned succeeded
    or was answered "not found". *)
Theorem deleteObjectBucket_succeeds_exactly_when {St}
        (vc : versioned.Interface St) (l : loc) (w : World St) :
  let update := Update (versioned.ObjectBuckets vc)
                       (removeFinalizerBucket (buckets w l)) (server w) in
  let delete := Delete (versioned.ObjectBuckets vc)
                       (ObjectBucket.Name (fst (fst update))) (snd update) in
  fst (deleteObjectBucket (Some l) vc w) = None
  <-> snd (fst update) = None
      /\ (fst delete = None \/ errors.IsNotFound (fst delete) = true).
Proof.
  intros update delete. rewrite deleteObjectBucket_run.
  fold update. fold delete.
  destruct (snd (fst update)) as [e|]; simpl.
  - split; [discriminate | intros [H _]; discriminate].
  - destruct (fst delete) as [e|]; simpl.
    + destruct (errors.IsNotFound (Some e)) eqn:Hnf; simpl.
      * split; auto.
      * split; [discriminate | intros [_ [H | H]]; discriminate].
    + split; auto.
Qed.

(** X12.  When the [Update] of [deleteObjectBucket] fails, with "not
    found" or any other error, the call returns that error as it is and
    sends no [Delete]; the finalizer is gone from the caller's object all
    the same, since it was removed there before the request. *)
Theorem deleteObjectBucket_failed_update {St} (vc : versioned.Interface St)
        (l : loc) (w : World St) (r : ObjectBucket.t) (e : error) (s : St) :
  let o := removeFinalizerBucket (buckets w l) in
  Update (versioned.ObjectBuckets vc) o (server w) = ((r, Some e), s) ->
  let run := deleteObjectBucket (Some l) vc w in
  fst run = Some e
  /\ sent w (worldOf run)
     = [mkCall objectbuckets "" VUpdate (ObjectBucket.Name o) (Some (BucketObject o))]
  /\ server (worldOf run) = s
  /\ buckets (worldOf run) l = o.
Proof.
  intros o Hu run. subst run. rewrite deleteObjectBucket_run. fold o.
  rewrite Hu. unfold worldOf. simpl. rewrite fn_lookup_insert.
  repeat split. by apply sent_app.
Qed.

Lemma deleteObjectBucket_failed_update_witness :
  let run := deleteObjectBucket (Some O) (fake.versioned (fake.failsAt 0 fake.notFound))
                                fake.world in
  fst run = Some fake.notFound
  /\ length (sent fake.world (worldOf run)) = 1%nat
  /\ metav1.Finalizers (ObjectBucket.ObjectMeta (buckets fake.world O)) = [finalizer]
  /\ metav1.Finalizers (ObjectBucket.ObjectMeta (buckets (worldOf run) O)) = [].
Proof.
  intros run.
  destruct (deleteObjectBucket_failed_update
              (fake.versioned (fake.failsAt 0 fake.notFound)) O fake.world
              (removeFinalizerBucket (fake.bucket "obc-ns1-c1")) fake.notFound 1%nat
              eq_refl) as (He & Hs & _ & Hb).
  subst run. split; [exact He |]. split; [exact (f_equal length Hs) |].
  split; [reflexivity |]. exact (f_equal (fun o => metav1.Finalizers
                                                     (ObjectBucket.ObjectMeta o)) Hb).
Defined.

(** ** The storage class of a claim *)

(** X13.  [StorageClassForClaim].  A nil claim is an error, and nothing
    is sent.  For a claim, the result is "no class and no error" exactly
    when the claim names no storage class, and then nothing is sent;
    otherwise one cluster-scoped [Get] of the named class is sent, a class is
    returned exactly when that [Get] succeeded, and a failure comes back
    inside a message, so that [errors.IsNotFound] is false on the error
    also when the class does not exist. *)
Theorem StorageClassForClaim_outcomes {St} (c : clientreader.Reader St)
        (obc : ObjectBucketClaim.t) (w : World St) :
  let name := ObjectBucketClaimSpec.StorageClassName (ObjectBucketClaim.Spec obc) in
  let answer := clientreader.ReaderGet c "" name (server w) in
  let r := util.StorageClassForClaim (Some obc) c w in
  util.StorageClassForClaim None c w
  = ((None, Some (Errorf "got nil ObjectBucketClaim ptr" [])), w)
  /\ (valOf r = None /\ errOf r = None <-> name = "")
  /\ sent w (worldOf r)
     = (if bool_decide (name = "") then []
        else [{| verb := VGet; resource := anyresource; callNamespace := "";
                 callName := name; body := None |}])
  /\ (is_Some (valOf r) <-> name <> "" /\ snd (fst answer) = None)
  /\ (is_Some (valOf r) <-> name <> "" /\ errOf r = None)
  /\ errors.IsNotFound (errOf r) = false.
Proof.
  intros name answer r. subst r. split; [reflexivity |].
  unfold util.StorageClassForClaim. fold name.
  destruct (bool_decide (name = "")) eqn:Hname.
  - apply bool_decide_eq_true in Hname.
    unfold valOf, errOf, worldOf, sent, is_Some. simpl. rewrite drop_all.
    repeat split; intros;
      repeat match goal with
             | H : ex _ |- _ => destruct H
             | H : and _ _ |- _ => destruct H
             end; done.
  - apply bool_decide_eq_false in Hname.
    unfold bind, Reader_Get. rewrite request_run. fold answer.
    destruct answer as [[class [e|]] s]; unfold valOf, errOf, worldOf, is_Some;
      simpl; (erewrite sent_app by reflexivity);
      repeat split; intros;
      repeat match goal with
             | H : ex _ |- _ => destruct H
             | H : and _ _ |- _ => destruct H
             end; try done; eauto.
Qed.

(** ** The bucket of a claim *)

Lemma append_inj_l (a b c : string) : a +:+ b = a +:+ c -> b = c.
Proof. induction a as [|x a IH]; simpl; [done |]. intros [= H]. auto. Qed.

Lemma length_append (a b : string) :
  String.length (a +:+ b) = (String.length a + String.length b)%nat.
Proof. induction a as [|x a IH]; simpl; [done | by rewrite IH]. Qed.

Lemma append_inj_length (a b c d : string) :
  String.length a = String.length c -> a +:+ b = c +:+ d -> a = c /\ b = d.
Proof.
  revert c. induction a as [|x a IH]; intros [|y c]; simpl; try done.
  intros [= Hlen] [= -> H]. destruct (IH c Hlen H) as [-> ->]. done.
Qed.

(** X14.  The name that [NewObjectBucket] gives a bucket does not
    determine the claim: the claim [b] in the namespace [a-x] and the
    claim [x-b] in the namespace [a] get the same bucket name. *)
Theorem NewObjectBucket_names_collide (zero : ObjectBucketStatus.t)
        (obc1 obc2 : ObjectBucketClaim.t) (conn1 conn2 : option Connection.t)
        (a x b : string) :
  ObjectBucketClaim.Namespace obc1 = a +:+ "-" +:+ x ->
  ObjectBucketClaim.Name obc1 = b ->
  ObjectBucketClaim.Namespace obc2 = a ->
  ObjectBucketClaim.Name obc2 = x +:+ "-" +:+ b ->
  ObjectBucket.Name (util.NewObjectBucket zero obc1 conn1)
  = ObjectBucket.Name (util.NewObjectBucket zero obc2 conn2).
Proof.
  intros H1 H2 H3 H4. unfold util.NewObjectBucket, ObjectBucket.Name. simpl.
  rewrite H1, H2, H3, H4. f_equal. by rewrite !append_assoc.
Qed.

Lemma NewObjectBucket_names_collide_witness :
  ObjectBucket.Name
    (util.NewObjectBucket {| ObjectBucketStatus.Phase := Pending |}
                          (fake.claim "team-a" "c1" "b1" true) None)
  = ObjectBucket.Name
      (util.NewObjectBucket {| ObjectBucketStatus.Phase := Pending |}
                            (fake.claim "team" "a-c1" "b2" false) None).
Proof.
  apply (NewObjectBucket_names_collide _ _ _ None None "team" "a" "c1");
    reflexivity.
Defined.

(** X15.  Among claims whose namespace has no hyphen the bucket name
    does determine the claim: equal bucket names mean equal namespaces and
    equal names. *)
Theorem NewObjectBucket_name_determines_claim (zero1 zero2 : ObjectBucketStatus.t)
        (obc1 obc2 : ObjectBucketClaim.t) (conn1 conn2 : option Connection.t) :
  strings.IndexByte (ObjectBucketClaim.Namespace obc1) "-" = None ->
  strings.IndexByte (ObjectBucketClaim.Namespace obc2) "-" = None ->
  ObjectBucket.Name (util.NewObjectBucket zero1 obc1 conn1)
  = ObjectBucket.Name (util.NewObjectBucket zero2 obc2 conn2) ->
  ObjectBucketClaim.Namespace obc1 = ObjectBucketClaim.Namespace obc2
  /\ ObjectBucketClaim.Name obc1 = ObjectBucketClaim.Name obc2.
Proof.
  unfold util.NewObjectBucket, ObjectBucket.Name. simpl.
  generalize (ObjectBucketClaim.Namespace obc1) (ObjectBucketClaim.Name obc1)
             (ObjectBucketClaim.Namespace obc2) (ObjectBucketClaim.Name obc2).
  intros ns1 n1 ns2 n2 H1 H2 [= H].
  revert ns2 H2 H. induction ns1 as [|c ns1 IH]; intros [|d ns2] H2 H;
    simpl in *.
  - by injection H as ->.
  - injection H as <- H. by rewrite bool_decide_eq_true_2 in H2.
  - injection H as -> H. by rewrite bool_decide_eq_true_2 in H1.
  - injection H as -> H.
    destruct (bool_decide (d = "-"%char)); [done |].
    destruct (strings.IndexByte ns1 "-") eqn:E1; [done |].
    destruct (strings.IndexByte ns2 "-") eqn:E2; [done |].
    destruct (IH eq_refl ns2 E2 H) as [-> ->]. done.
Qed.

Lemma NewObjectBucket_name_determines_claim_witness :
  ObjectBucketClaim.Namespace (fake.claim "ns1" "c1" "b1" true)
  = ObjectBucketClaim.Namespace (fake.claim "ns1" "c1" "b2" false)
  /\ ObjectBucketClaim.Name (fake.claim "ns1" "c1" "b1" true)
     = ObjectBucketClaim.Name (fake.claim "ns1" "c1" "b2" false).
Proof.
  apply (NewObjectBucket_name_determines_claim
           {| ObjectBucketStatus.Phase := Pending |}
           {| ObjectBucketStatus.Phase := Bound |}
           (fake.claim "ns1" "c1" "b1" true) (fake.claim "ns1" "c1" "b2" false)
           None None); reflexivity.
Defined.

(** ** Generated bucket names *)

(** X16.  [GenerateBucketName], with a source of random strings that
    returns strings of the length it is asked for: without a prefix the name
    is the five random bytes alone, with no hyphen added; with a prefix it is
    the prefix, a hyphen and the five bytes, six bytes longer than the
    prefix. *)
Theorem GenerateBucketName_length (randString : nat -> string) (prefix : string) :
  (forall n, String.length (randString n) = n) ->
  let name := util.GenerateBucketName randString prefix in
  name = (if bool_decide (prefix = "") then "" else prefix +:+ "-") +:+ randString util.suffixLen
  /\ String.length name
     = (if bool_decide (prefix = "") then 5 else String.length prefix + 6)%nat.
Proof.
  intros Hrand name. subst name. unfold util.GenerateBucketName, util.suffixLen.
  destruct (bool_decide (prefix = "")).
  - split; [done | apply Hrand].
  - split; [by rewrite append_assoc |].
    rewrite !length_append, Hrand. simpl. lia.
Qed.

Lemma GenerateBucketName_length_witness :
  String.length (util.GenerateBucketName (fun n => string_of_list_ascii (replicate n "x"%char)) "photos")
  = 12%nat
  /\ String.length (util.GenerateBucketName (fun n => string_of_list_ascii (replicate n "x"%char)) "")
     = 5%nat.
Proof.
  assert (H : forall n, String.length (string_of_list_ascii (replicate n "x"%char)) = n).
  { induction n as [|n IH]; simpl; [done | by rewrite IH]. }
  split.
  - apply (GenerateBucketName_length _ "photos" H).
  - apply (GenerateBucketName_length _ "" H).
Defined.

(** ** The two ConfigMap builders *)



(** ** The bucket URL when segments are missing *)

(** The loop of [path.Clean] over segments joined by slashes, each of
    them empty or plain: the empty ones leave no trace. *)
Lemma scan_joined (segs : list string) (out : list ascii) :
  Forall (fun e => e = "" \/ plainSegment e = true) segs ->
  path.scan false false (strings.Join segs "/") out 0
  = fold_left (fun out e => if bool_decide (e = "") then out
                            else rev (list_ascii_of_string e) ++ separated out)
              segs out.
Proof.
  intros H. revert out. induction H as [|e rest He Hrest IH]; intros out; [done |].
  destruct rest as [|e' rest'].
  - simpl. destruct He as [-> | He]; [done |].
    rewrite bool_decide_eq_false_2 by (intros ->; done).
    rewrite <- (append_nil_r e) at 1. by rewrite scan_segment.
  - change (strings.Join (e :: e' :: rest') "/")
      with (e +:+ String "/" (strings.Join (e' :: rest') "/")).
    change (fold_left ?f (e :: ?l) ?o) with (fold_left f l (f o e)). cbv beta.
    destruct He as [-> | He].
    + rewrite bool_decide_eq_true_2 by done.
      change ("" +:+ String "/" ?x) with (String "/" x).
      rewrite <- IH. reflexivity.
    + rewrite bool_decide_eq_false_2 by (intros ->; done).
      rewrite scan_segment by done. rewrite scan_slash. apply IH.
Qed.

(** What that loop has written, read as a string. *)
Lemma fold_joined (segs : list string) (out : list ascii) :
  string_of_list_ascii
    (rev (fold_left (fun out e => if bool_decide (e = "") then out
                                  else rev (list_ascii_of_string e) ++ separated out)
                    segs out))
  = string_of_list_ascii (rev out)
    +:+ match filter (fun e => e <> "") segs with
        | [] => ""
        | l => (match out with [] => "" | _ => "/" end) +:+ strings.Join l "/"
        end.
Proof.
  revert out. induction segs as [|e rest IH]; intros out.
  - simpl. by rewrite append_nil_r.
  - change (fold_left ?f (e :: ?l) ?o) with (fold_left f l (f o e)). cbv beta.
    rewrite filter_cons. destruct (decide (e <> "")) as [Hne | He].
    + rewrite bool_decide_eq_false_2 by done. rewrite IH.
      rewrite rev_app_distr, rev_involutive, string_of_list_ascii_app.
      rewrite string_of_list_ascii_of_string.
      assert (Hout : rev (list_ascii_of_string e) ++ separated out <> []).
      { destruct e as [|c e]; [done |]. simpl. by destruct (rev _). }
      assert (Hsep : string_of_list_ascii (rev (separated out))
                     = string_of_list_ascii (rev out)
                       +:+ match out with [] => "" | _ => "/" end).
      { destruct out as [|c out]; [done |].
        change (separated (c :: out)) with ("/"%char :: c :: out).
        change (rev ("/"%char :: c :: out)) with (rev (c :: out) ++ ["/"%char]).
        by rewrite string_of_list_ascii_app. }
      rewrite Hsep, !append_assoc. f_equal. f_equal.
      destruct (filter _ rest) as [|e1 l] eqn:Hl.
      * by rewrite append_nil_r.
      * destruct (rev (list_ascii_of_string e) ++ separated out); [done |].
        reflexivity.
    + apply dec_stable in He. subst e. rewrite bool_decide_eq_true_2 by done.
      apply IH.
Qed.

Lemma plainSegment_not_rooted (e t : string) :
  plainSegment e = true -> e <> "" /\ strings.HasPrefix (e +:+ t) "/" = false.
Proof.
  intros He. destruct e as [|c e]; [done |]. split; [done |]. simpl.
  unfold plainSegment, plain in He. simpl in He.
  apply andb_prop in He as [[[[Hc _]%andb_prop _]%andb_prop _]%andb_prop _].
  by rewrite (plainByte_not_slash c Hc).
Qed.

(** [path.Join] on segments that are empty or plain joins the plain
    ones. *)
Lemma Join_skips_empty (segs : list string) :
  Forall (fun e => e = "" \/ plainSegment e = true) segs ->
  path.Join segs = strings.Join (filter (fun e => e <> "") segs) "/".
Proof.
  induction 1 as [|e rest He Hrest IH]; [done |].
  cbn [path.Join]. rewrite filter_cons.
  destruct He as [-> | He].
  - rewrite bool_decide_eq_true_2 by done. by rewrite decide_False by auto.
  - destruct (plainSegment_not_rooted e "" He) as [Hne _].
    rewrite bool_decide_eq_false_2 by done. rewrite decide_True by done.
    assert (Hroot : strings.HasPrefix (strings.Join (e :: rest) "/") "/" = false).
    { destruct rest as [|e' rest'].
      - rewrite <- (append_nil_r e). apply plainSegment_not_rooted, He.
      - apply (plainSegment_not_rooted e _ He). }
    assert (Hjoin : strings.Join (e :: rest) "/" <> "").
    { destruct rest; destruct e; done. }
    rewrite Clean_unrooted by done.
    rewrite scan_joined by (constructor; auto).
    pose proof (fold_joined (e :: rest) []) as Hf.
    rewrite filter_cons, decide_True in Hf by done. simpl in Hf.
    destruct (fold_left _ _ _) as [|c out] eqn:Hfold.
    + cbn [fold_left] in Hfold. rewrite bool_decide_eq_false_2 in Hfold by done.
      simpl in Hf. destruct rest as [|e' rest']; simpl in Hf.
      * destruct e; done.
      * destruct (filter _ (e' :: rest')); destruct e; done.
    + exact Hf.
Qed.

Lemma plainSegments_bytes (segs : list string) :
  Forall (fun e => e = "" \/ plainSegment e = true) segs ->
  allBytes pathByte (strings.Join (filter (fun e => e <> "") segs) "/") = true.
Proof.
  induction 1 as [|e rest He Hrest IH]; [done |].
  rewrite filter_cons. destruct He as [-> | He].
  - by rewrite decide_False by auto.
  - rewrite decide_True by (intros ->; done).
    pose proof (allBytes_impl plainByte pathByte _ plainByte_path
                  (plainSegment_plain _ He)) as H1.
    destruct (filter _ rest) as [|e1 l]; [done |].
    change (strings.Join (e :: e1 :: l) "/")
      with (e +:+ "/" +:+ strings.Join (e1 :: l) "/").
    by rewrite !allBytes_app, H1, IH.
Qed.

(** X18.  With a plain host and region, subregion and bucket name each
    either empty or a plain segment, the builder of package [util] succeeds
    and its [BUCKET_URL] is [scheme://host[:port]/] followed by the non-empty
    ones among the three, joined by slashes: an empty segment leaves no
    empty path element behind, and with all three empty the URL ends at the
    slash after the authority. *)
Theorem bucket_url_skips_empty_segments (ep : Endpoint.t)
        (obc : ObjectBucketClaim.t) :
  plain (Endpoint.BucketHost ep) = true ->
  Forall (fun seg => seg = "" \/ plainSegment seg = true)
         [Endpoint.Region ep; Endpoint.SubRegion ep; Endpoint.BucketName ep] ->
  exists cm,
    util.NewBucketConfigMap (Some ep) (Some obc) = (Some cm, None)
    /\ ConfigMap.Data cm !! util.BucketURL = Some (joinedBucketURL ep obc).
Proof.
  intros Hhost Hsegs.
  set (scheme := if ObjectBucketClaimSpec.SSL (ObjectBucketClaim.Spec obc)
                 then "https" else "http").
  set (authority := Endpoint.BucketHost ep
                    +:+ (if 0 <? Endpoint.BucketPort ep
                         then ":" +:+ strconv.Itoa (Endpoint.BucketPort ep) else "")).
  set (segments := strings.Join
                     (filter (fun seg => seg <> "")
                             [Endpoint.Region ep; Endpoint.SubRegion ep;
                              Endpoint.BucketName ep]) "/").
  assert (Hs : scheme = "http" \/ scheme = "https")
    by (unfold scheme; destruct (ObjectBucketClaimSpec.SSL _); auto).
  destruct (authority_plain ep Hhost) as [Ha Hh]. fold authority in Ha, Hh.
  pose proof (plainSegments_bytes _ Hsegs) as Hp. fold segments in Hp.
  assert (Hraw : util.rawBucketURL ep obc
                 = scheme +:+ ":" +:+ "//" +:+ authority +:+ "/" +:+ segments).
  { unfold util.rawBucketURL, util.bucketPath. rewrite (Join_skips_empty _ Hsegs).
    fold segments. unfold scheme, authority.
    destruct (ObjectBucketClaimSpec.SSL _), (0 <? Endpoint.BucketPort ep);
      rewrite ?append_nil_r, ?append_assoc; reflexivity. }
  assert (Hjoined : joinedBucketURL ep obc
                    = scheme +:+ ":" +:+ "//" +:+ authority +:+ "/" +:+ segments).
  { unfold joinedBucketURL. fold segments. unfold scheme, authority.
    destruct (ObjectBucketClaimSpec.SSL _), (0 <? Endpoint.BucketPort ep);
      rewrite ?append_nil_r, ?append_assoc; reflexivity. }
  unfold util.NewBucketConfigMap.
  rewrite Hraw, (Parse_plain scheme authority segments Hs Ha Hh Hp).
  eexists. split; [reflexivity |]. simpl.
  rewrite (String_plain scheme authority segments Hs Ha Hp), Hjoined.
  by simplify_map_eq.
Qed.

Lemma bucket_url_skips_empty_segments_witness :
  (exists cm,
      util.NewBucketConfigMap
        (Some (fake.endpoint "s3.example.com" 8080 "us" "" "b1" false))
        (Some (fake.claim "ns1" "c1" "b1" true)) = (Some cm, None)
      /\ ConfigMap.Data cm !! util.BucketURL
         = Some "https://s3.example.com:8080/us/b1")
  /\ (exists cm,
         util.NewBucketConfigMap
           (Some (fake.endpoint "s3.example.com" 0 "" "" "" false))
           (Some (fake.claim "ns1" "c1" "b1" false)) = (Some cm, None)
         /\ ConfigMap.Data cm !! util.BucketURL = Some "http://s3.example.com/").
Proof.
  split.
  - apply (bucket_url_skips_empty_segments
             (fake.endpoint "s3.example.com" 8080 "us" "" "b1" false)
             (fake.claim "ns1" "c1" "b1" true)); [reflexivity |].
    repeat (apply Forall_cons_2 || apply Forall_nil_2);
      first [left; reflexivity | right; reflexivity].
  - apply (bucket_url_skips_empty_segments
             (fake.endpoint "s3.example.com" 0 "" "" "" false)
             (fake.claim "ns1" "c1" "b1" false)); [reflexivity |].
    repeat (apply Forall_cons_2 || apply Forall_nil_2);
      first [left; reflexivity | right; reflexivity].
Defined.
